(** * Waypoint actions of [src/libs/actions/Transaction.ts]

    A shallow embedding of the waypoint list management of the expense
    client: [addStop], [saveWaypoint], [removeWaypoint], [updateWaypoints],
    [getRoute] and [getRouteForDraft], together with the JavaScript values
    they build and the store calls they issue. *)

From Stdlib Require Import QArith Qcanon DecimalString.
From stdpp Require Import base numbers strings list gmap pretty.

Local Open Scope string_scope.
Local Open Scope list_scope.
Set Warnings "-register-all".

(** ** JavaScript values *)

(** A JavaScript number: NaN, an infinity, or a finite rational.  Doubles are
    a subset of these; the two zeros are identified, which no operation below
    can tell apart ([-0 === 0] holds and [splice] truncates both to 0). *)
Inductive number : Type :=
  | NaN
  | Infinity (negative : bool)
  | Finite (q : Qc).

Global Instance number_eq_dec : EqDecision number.
Proof. solve_decision. Defined.

Definition number_of_Z (z : Z) : number := Finite (Qc_of_Z z).
Definition number_of_nat (n : nat) : number := number_of_Z (Z.of_nat n).

(** Values as the store holds them.  The property list of an object is kept
    in the order in which [Object.keys] enumerates it. *)
Inductive jsvalue : Type :=
  | VUndefined
  | VNull
  | VBool (b : bool)
  | VNum (n : number)
  | VStr (s : string)
  | VArr (items : list jsvalue)
  | VObj (props : list (string * jsvalue)).

Abbreviation Obj := (list (string * jsvalue)).

(** [OnyxEntry<T>] is [T | null]. *)
Definition entry (o : option Obj) : jsvalue :=
  match o with
  | Some props => VObj props
  | None => VNull
  end.

(** ** Property access *)

Fixpoint obj_get (k : string) (o : Obj) : jsvalue :=
  match o with
  | [] => VUndefined
  | (k', v) :: o' => if decide (k' = k) then v else obj_get k o'
  end.

Definition obj_has (k : string) (o : Obj) : bool := bool_decide (k ∈ o.*1).

(** [o[k] = v]: an existing property keeps its place, a new one goes last
    (every key written below is a name such as [waypoint3], never an array
    index, so it is enumerated in insertion order). *)
Fixpoint obj_set (k : string) (v : jsvalue) (o : Obj) : Obj :=
  match o with
  | [] => [(k, v)]
  | (k', v') :: o' => if decide (k' = k) then (k, v) :: o' else (k', v') :: obj_set k v o'
  end.

(** [v?.k] for a property name [k] that is neither an index nor [length]:
    only objects carry such a property. *)
Definition get (v : jsvalue) (k : string) : jsvalue :=
  match v with
  | VObj o => obj_get k o
  | _ => VUndefined
  end.

(** [v ?? d] *)
Definition nullish (v : jsvalue) : bool :=
  match v with
  | VUndefined | VNull => true
  | _ => false
  end.

Definition nullish_or (v d : jsvalue) : jsvalue := if nullish v then d else v.

Infix "??" := nullish_or (at level 45, left associativity).

(** Truthiness, as [!x] and [if (x)] see it. *)
Definition truthy (v : jsvalue) : bool :=
  match v with
  | VUndefined | VNull => false
  | VBool b => b
  | VNum NaN => false
  | VNum (Infinity _) => true
  | VNum (Finite q) => negb (bool_decide (q = 0%Qc))
  | VStr s => negb (bool_decide (s = ""))
  | VArr _ | VObj _ => true
  end.

(** [a === b] on numbers. *)
Definition number_strict_equals (a b : number) : bool :=
  match a, b with
  | NaN, _ | _, NaN => false
  | _, _ => bool_decide (a = b)
  end.

(** [a === b].  Object identity is not part of the model: two object or array
    values are taken to be different references. *)
Definition strict_equals (a b : jsvalue) : bool :=
  match a, b with
  | VUndefined, VUndefined => true
  | VNull, VNull => true
  | VBool x, VBool y => bool_decide (x = y)
  | VNum x, VNum y => number_strict_equals x y
  | VStr x, VStr y => bool_decide (x = y)
  | _, _ => false
  end.

(** The enumerable own properties of a value, in enumeration order; this is
    what [Object.keys], [Object.values] and object spread read. *)
Definition index_props (items : list jsvalue) : Obj :=
  imap (λ i v, (pretty i, v)) items.

Definition string_chars (s : string) : list jsvalue :=
  (λ c, VStr (String c EmptyString)) <$> String.list_ascii_of_string s.

Definition own_props (v : jsvalue) : Obj :=
  match v with
  | VObj o => o
  | VArr items => index_props items
  | VStr s => index_props (string_chars s)
  | _ => []
  end.

Definition Object_keys (v : jsvalue) : list string := (own_props v).*1.
Definition Object_values (v : jsvalue) : list jsvalue := (own_props v).*2.

(** ** Array methods *)

Inductive IntegerOrInfinity : Type :=
  | MinusInfinity
  | PlusInfinity
  | Integer (z : Z).

Definition ToIntegerOrInfinity (n : number) : IntegerOrInfinity :=
  match n with
  | NaN => Integer 0
  | Infinity true => MinusInfinity
  | Infinity false => PlusInfinity
  | Finite q => Integer (Z.quot (Qnum q) (Z.pos (Qden q)))
  end.

(** The clamped start position of [splice] and [slice] on an array of length
    [len]. *)
Definition relative_start (len : nat) (start : number) : nat :=
  match ToIntegerOrInfinity start with
  | MinusInfinity => 0
  | PlusInfinity => len
  | Integer z =>
      if decide (z < 0)%Z then Z.to_nat (Z.max (Z.of_nat len + z) 0)
      else Z.to_nat (Z.min z (Z.of_nat len))
  end.

(** [arr.splice(start, deleteCount, ...new_items)]: the removed elements and
    the array afterwards. *)
Definition splice (arr : list jsvalue) (start : number) (deleteCount : nat)
    (new_items : list jsvalue) : list jsvalue * list jsvalue :=
  let actualStart := relative_start (length arr) start in
  let actualDeleteCount := deleteCount `min` (length arr - actualStart) in
  (take actualDeleteCount (drop actualStart arr),
   take actualStart arr ++ new_items ++ drop (actualStart + actualDeleteCount) arr).

(** [arr.slice(0, n)] *)
Definition slice0 (arr : list jsvalue) (n : nat) : list jsvalue := take n arr.

(** [arr.forEach((x, idx) => ...)], threading the state the callback
    mutates. *)
Fixpoint forEach_from {S : Type} (idx : nat) (arr : list jsvalue)
    (f : jsvalue → nat → S → S) (s : S) : S :=
  match arr with
  | [] => s
  | x :: arr' => forEach_from (idx + 1) arr' f (f x idx s)
  end.

Definition forEach {S : Type} (arr : list jsvalue) (f : jsvalue → nat → S → S)
    (s : S) : S :=
  forEach_from 0 arr f s.

(** [arr.find(p)] *)
Definition find (arr : list Obj) (p : Obj → bool) : jsvalue :=
  match List.find p arr with
  | Some x => VObj x
  | None => VUndefined
  end.

(** An object literal [{...base, k1: v1, ..., kn: vn}]. *)
Definition object_literal (base : Obj) (fields : list (string * jsvalue)) : Obj :=
  foldl (λ o kv, obj_set kv.1 kv.2 o) base fields.

(** [lodashHas(v, k)] for a one-segment path [k]. *)
Definition lodashHas (v : jsvalue) (k : string) : bool :=
  match v with
  | VObj o => obj_has k o
  | _ => false
  end.

(** [isEqual(v, s)] against a string constant [s]. *)
Definition isEqual_string (v : jsvalue) (s : string) : bool :=
  match v with
  | VStr x => bool_decide (x = s)
  | _ => false
  end.

(** [lodashClone] of an array is a shallow copy: the same elements. *)
Definition lodashClone (arr : list Obj) : list Obj := arr.

(** ** The store and the calls made to it *)

Inductive OnyxMethod : Type := METHOD_MERGE | METHOD_SET.

Record OnyxUpdate : Type := {
  onyxMethod : OnyxMethod;
  key : string;
  value : jsvalue;
}.

Record OnyxData : Type := {
  optimisticData : list OnyxUpdate;
  successData : list OnyxUpdate;
  failureData : list OnyxUpdate;
}.

(** What an action asks of its collaborators, in program order. *)
Inductive Call : Type :=
  | Onyx_merge_call (k : string) (changes : jsvalue)
  | Onyx_set_call (k : string) (v : jsvalue)
  | API_read_call (command : string) (apiCommandParameters : Obj) (onyxData : OnyxData).

(** The promise a store write returns: it settles when that write is done. *)
Inductive Promise : Type :=
  | WriteDone (write : Call).

(** Actions run in a writer monad over the calls they make. *)
Definition M (A : Type) : Type := A * list Call.

Global Instance M_ret : MRet M := λ A a, (a, []).
Global Instance M_bind : MBind M := λ A B f m, ((f m.1).1, m.2 ++ (f m.1).2).

Definition result {A : Type} (m : M A) : A := m.1.
Definition calls {A : Type} (m : M A) : list Call := m.2.

Definition Onyx_merge (k : string) (changes : jsvalue) : M Promise :=
  (WriteDone (Onyx_merge_call k changes), [Onyx_merge_call k changes]).

Definition Onyx_set (k : string) (v : jsvalue) : M Promise :=
  (WriteDone (Onyx_set_call k v), [Onyx_set_call k v]).

Definition API_read (command : string) (apiCommandParameters : Obj)
    (onyxData : OnyxData) : M unit :=
  (tt, [API_read_call command apiCommandParameters onyxData]).

(** The module's mirrors of the store, kept current by its two
    [Onyx.connect] subscriptions. *)
Record Mirror : Type := {
  recentWaypoints : list Obj;
  allTransactions : gmap string Obj;
}.

(** What the module imports and the source files at hand do not define: key
    and text constants, the address check of [TransactionUtils], and the
    language's own conversions. *)
Class Imports : Type := {
  ONYXKEYS_NVP_RECENT_WAYPOINTS : string;
  ONYXKEYS_COLLECTION_TRANSACTION : string;
  ONYXKEYS_COLLECTION_TRANSACTION_DRAFT : string;
  CONST_YOUR_LOCATION_TEXT : string;
  TransactionUtils_waypointHasValidAddress : jsvalue → bool;
  Number : string → number;
  Number_toString : number → string;
}.

(** [JSON.stringify], which only the route requests use. *)
Class JSON : Type := {
  JSON_stringify : jsvalue → string;
}.

Section Transaction.
Context `{!Imports, !JSON}.

(** The string a template literal [`${v}`] splices in. *)
Fixpoint ToString (v : jsvalue) : string :=
  match v with
  | VUndefined => "undefined"
  | VNull => "null"
  | VBool true => "true"
  | VBool false => "false"
  | VNum n => Number_toString n
  | VStr s => s
  | VArr items =>
      String.concat ","
        ((fix go (l : list jsvalue) : list string :=
            match l with
            | [] => []
            | x :: l' => (if nullish x then "" else ToString x) :: go l'
            end) items)
  | VObj _ => "[object Object]"
  end.

Definition createInitialWaypoints (transactionID : string) : M unit :=
  Onyx_merge (ONYXKEYS_COLLECTION_TRANSACTION +:+ transactionID)
    (VObj [("comment",
            VObj [("waypoints",
                   VObj [("waypoint0", VObj []); ("waypoint1", VObj [])])])]);;
  mret tt.

Definition addStop (mirror : Mirror) (transactionID : string) : M unit :=
  let transaction := default (VObj []) (VObj <$> allTransactions mirror !! transactionID) in
  let existingWaypoints := get (get transaction "comment") "waypoints" ?? VObj [] in
  let newLastIndex := length (Object_keys existingWaypoints) in
  Onyx_merge (ONYXKEYS_COLLECTION_TRANSACTION +:+ transactionID)
    (VObj [("comment",
            VObj [("waypoints",
                   VObj [("waypoint" +:+ pretty newLastIndex, VObj [])])])]);;
  mret tt.

Definition saveWaypoint (mirror : Mirror) (transactionID index : string)
    (waypoint : option Obj) (isDraft : bool) : M unit :=
  Onyx_merge
    ((if isDraft then ONYXKEYS_COLLECTION_TRANSACTION
      else ONYXKEYS_COLLECTION_TRANSACTION_DRAFT) +:+ transactionID)
    (VObj [("comment",
            VObj [("waypoints", VObj [("waypoint" +:+ index, entry waypoint)])]);
           ("errorFields", VObj [("route", VNull)]);
           ("routes",
            VObj [("route0", VObj [("geometry", VObj [("coordinates", VNull)])])])]);;
  if negb (lodashHas (entry waypoint) "lat") || negb (lodashHas (entry waypoint) "lng")
  then mret tt
  else if isEqual_string (get (entry waypoint) "address") CONST_YOUR_LOCATION_TEXT
  then mret tt
  else
    let recentWaypointAlreadyExists :=
      find (recentWaypoints mirror)
        (λ recentWaypoint,
           strict_equals (get (VObj recentWaypoint) "address")
             (get (entry waypoint) "address")) in
    if negb (truthy recentWaypointAlreadyExists)
       && negb (strict_equals (entry waypoint) VNull)
    then
      let clonedWaypoints := VObj <$> lodashClone (recentWaypoints mirror) in
      let clonedWaypoints := entry waypoint :: clonedWaypoints in
      Onyx_merge ONYXKEYS_NVP_RECENT_WAYPOINTS (VArr (slice0 clonedWaypoints 5));;
      mret tt
    else mret tt.

Definition removeWaypoint (transaction : option Obj) (currentIndex : string)
    (isDraft : bool) : M unit :=
  let transaction := entry transaction in
  let index := Number currentIndex in
  let existingWaypoints := get (get transaction "comment") "waypoints" ?? VObj [] in
  let totalWaypoints := length (Object_keys existingWaypoints) in
  let waypointValues := Object_values existingWaypoints in
  let spliced := splice waypointValues index 1 [] in
  let removed := spliced.1 in
  let waypointValues := spliced.2 in
  if bool_decide (length removed = 0) then mret tt
  else
    let isRemovedWaypointEmpty :=
      bool_decide (0 < length removed)
      && negb (TransactionUtils_waypointHasValidAddress
                 (default VUndefined (removed !! 0) ?? VObj [])) in
    let waypointValues :=
      if bool_decide (totalWaypoints = 2)
         && (number_strict_equals index (number_of_Z 0)
             || number_strict_equals index (number_of_Z (Z.of_nat totalWaypoints - 1)))
      then (splice waypointValues index 0 [VObj []]).2
      else waypointValues in
    let reIndexedWaypoints :=
      forEach waypointValues
        (λ waypoint idx reIndexedWaypoints,
           obj_set ("waypoint" +:+ pretty idx) waypoint reIndexedWaypoints)
        ([] : Obj) in
    let newTransaction :=
      object_literal (own_props transaction)
        [("amount", get transaction "amount" ?? VNum (number_of_Z 0));
         ("billable", get transaction "billable" ?? VBool false);
         ("category", get transaction "category" ?? VStr "");
         ("created", get transaction "created" ?? VStr "");
         ("currency", get transaction "currency" ?? VStr "");
         ("pendingAction", get transaction "pendingAction" ?? VNull);
         ("merchant", get transaction "merchant" ?? VStr "");
         ("reportID", get transaction "reportID" ?? VStr "");
         ("transactionID", get transaction "transactionID" ?? VStr "");
         ("tag", get transaction "tag" ?? VStr "");
         ("comment",
          VObj (object_literal (own_props (get transaction "comment"))
                  [("waypoints", VObj reIndexedWaypoints)]))] in
    let newTransaction :=
      if negb isRemovedWaypointEmpty then
        object_literal newTransaction
          [("errorFields", VObj [("route", VNull)]);
           ("routes",
            VObj [("route0",
                   VObj [("distance", VNull);
                         ("geometry", VObj [("coordinates", VNull)])])])]
      else newTransaction in
    if isDraft then
      Onyx_set
        (ONYXKEYS_COLLECTION_TRANSACTION_DRAFT
           +:+ ToString (get transaction "transactionID"))
        (VObj newTransaction);;
      mret tt
    else
      Onyx_set
        (ONYXKEYS_COLLECTION_TRANSACTION
           +:+ ToString (get transaction "transactionID"))
        (VObj newTransaction);;
      mret tt.

Definition getOnyxDataForRouteRequest (transactionID : string) (isDraft : bool)
    : OnyxData :=
  {| optimisticData :=
       [{| onyxMethod := METHOD_MERGE;
           key := (if isDraft then ONYXKEYS_COLLECTION_TRANSACTION_DRAFT
                   else ONYXKEYS_COLLECTION_TRANSACTION) +:+ transactionID;
           value := VObj [("comment", VObj [("isLoading", VBool true)]);
                          ("errorFields", VObj [("route", VNull)])] |}];
     successData :=
       [{| onyxMethod := METHOD_MERGE;
           key := (if isDraft then ONYXKEYS_COLLECTION_TRANSACTION_DRAFT
                   else ONYXKEYS_COLLECTION_TRANSACTION) +:+ transactionID;
           value := VObj [("comment", VObj [("isLoading", VBool false)])] |}];
     failureData :=
       [{| onyxMethod := METHOD_MERGE;
           key := (if isDraft then ONYXKEYS_COLLECTION_TRANSACTION_DRAFT
                   else ONYXKEYS_COLLECTION_TRANSACTION) +:+ transactionID;
           value := VObj [("comment", VObj [("isLoading", VBool false)])] |}] |}.

Definition getRoute (transactionID : string) (waypoints : Obj) : M unit :=
  API_read "GetRoute"
    [("transactionID", VStr transactionID);
     ("waypoints", VStr (JSON_stringify (VObj waypoints)))]
    (getOnyxDataForRouteRequest transactionID false).

Definition getRouteForDraft (transactionID : string) (waypoints : Obj) : M unit :=
  API_read "GetRouteForDraft"
    [("transactionID", VStr transactionID);
     ("waypoints", VStr (JSON_stringify (VObj waypoints)))]
    (getOnyxDataForRouteRequest transactionID true).

Definition updateWaypoints (transactionID : string) (waypoints : Obj)
    (isDraft : bool) : M Promise :=
  Onyx_merge
    ((if isDraft then ONYXKEYS_COLLECTION_TRANSACTION_DRAFT
      else ONYXKEYS_COLLECTION_TRANSACTION) +:+ transactionID)
    (VObj [("comment", VObj [("waypoints", VObj waypoints)]);
           ("errorFields", VObj [("route", VNull)]);
           ("routes",
            VObj [("route0",
                   VObj [("distance", VNull);
                         ("geometry", VObj [("coordinates", VNull)])])])]).

End Transaction.

(** ** What the store does with the calls *)

(** Modelled from the spec: [merge] of the reactive store, a third-party
    package that is not among the source files.  It is a deep structural
    merge: an object patch is merged into an object property by property, and
    anything else (a primitive, an array, [null]) replaces what was there.  A
    nested [null] is stored as such; as the comment in [removeWaypoint] says,
    a merge does not remove nested keys. *)
Fixpoint deep_merge (target source : jsvalue) {struct source} : jsvalue :=
  match source with
  | VObj changes =>
      match target with
      | VObj props =>
          VObj ((fix go (changes : list (string * jsvalue)) (acc : Obj) : Obj :=
                   match changes with
                   | [] => acc
                   | (k, v) :: changes' =>
                       go changes' (obj_set k (deep_merge (obj_get k acc) v) acc)
                   end) changes props)
      | _ => source
      end
  | _ => source
  end.

Definition stored (store : gmap string jsvalue) (k : string) : jsvalue :=
  default VUndefined (store !! k).

(** Modelled from the spec: [merge(key, partialValue)] merges into the value
    at [key], [set(key, fullValue)] replaces it. *)
Definition apply_update (store : gmap string jsvalue) (u : OnyxUpdate)
    : gmap string jsvalue :=
  match onyxMethod u with
  | METHOD_MERGE => <[key u := deep_merge (stored store (key u)) (value u)]> store
  | METHOD_SET => <[key u := value u]> store
  end.

(** Modelled from the spec: a read request applies its optimistic patches at
    once; the success or failure patches follow when the request resolves. *)
Definition apply_call (store : gmap string jsvalue) (c : Call)
    : gmap string jsvalue :=
  match c with
  | Onyx_merge_call k changes =>
      apply_update store {| onyxMethod := METHOD_MERGE; key := k; value := changes |}
  | Onyx_set_call k v =>
      apply_update store {| onyxMethod := METHOD_SET; key := k; value := v |}
  | API_read_call _ _ onyxData => foldl apply_update store (optimisticData onyxData)
  end.

Definition run (store : gmap string jsvalue) (cs : list Call) : gmap string jsvalue :=
  foldl apply_call store cs.

(** ** Observations used in the statements *)

Definition waypoint_key (i : nat) : string := "waypoint" +:+ pretty i.

(** The key [waypoint0], ..., [waypoint(k-1)]. *)
Definition waypoint_keys (k : nat) : list string := waypoint_key <$> seq 0 k.

(** [v.comment.waypoints] *)
Definition waypoints_of (v : jsvalue) : jsvalue := get (get v "comment") "waypoints".

(** The transaction an action writes with a single [Onyx.set], if it does. *)
Definition written_transaction (m : M unit) : option jsvalue :=
  match calls m with
  | [Onyx_set_call _ v] => Some v
  | _ => None
  end.

(** The waypoint values [removeWaypoint] re-indexes: the array after the
    removal and, for a two-stop trip losing an end point, the reinsertion. *)
Definition waypointValues_after (existingWaypoints : jsvalue) (index : number)
    : list jsvalue :=
  let totalWaypoints := length (Object_keys existingWaypoints) in
  let waypointValues := (splice (Object_values existingWaypoints) index 1 []).2 in
  if bool_decide (totalWaypoints = 2)
     && (number_strict_equals index (number_of_Z 0)
         || number_strict_equals index (number_of_Z (Z.of_nat totalWaypoints - 1)))
  then (splice waypointValues index 0 [VObj []]).2
  else waypointValues.

(** The fields [removeWaypoint] fills in when the transaction lacks them. *)
Definition scalar_defaults : list (string * jsvalue) :=
  [("amount", VNum (number_of_Z 0)); ("billable", VBool false);
   ("category", VStr ""); ("created", VStr ""); ("currency", VStr "");
   ("pendingAction", VNull); ("merchant", VStr ""); ("reportID", VStr "");
   ("transactionID", VStr ""); ("tag", VStr "")].

Definition cleared_errorFields : jsvalue := VObj [("route", VNull)].

Definition cleared_routes : jsvalue :=
  VObj [("route0",
         VObj [("distance", VNull); ("geometry", VObj [("coordinates", VNull)])])].

(** [saveWaypoint] goes on to write the recent waypoints when this holds. *)
Definition saves_recent `{!Imports} (mirror : Mirror) (waypoint : option Obj) : bool :=
  lodashHas (entry waypoint) "lat" && lodashHas (entry waypoint) "lng"
  && negb (isEqual_string (get (entry waypoint) "address") CONST_YOUR_LOCATION_TEXT)
  && negb (truthy (find (recentWaypoints mirror)
                     (λ recentWaypoint,
                        strict_equals (get (VObj recentWaypoint) "address")
                          (get (entry waypoint) "address"))))
  && negb (strict_equals (entry waypoint) VNull).

(** ** A concrete instance, for the examples *)

(** [Number] on unsigned decimal integer literals; every other string goes to
    NaN, as [Number] does for the non-numeric strings used in the examples. *)
Definition sample_Number (s : string) : number :=
  match s with
  | "" => number_of_Z 0
  | _ =>
      match DecimalString.NilEmpty.uint_of_string s with
      | Some d => number_of_Z (Z.of_uint d)
      | None => NaN
      end
  end.

(** [Number.prototype.toString] on NaN, the infinities and the integers; the
    examples print no other number. *)
Definition sample_Number_toString (n : number) : string :=
  match n with
  | NaN => "NaN"
  | Infinity true => "-Infinity"
  | Infinity false => "Infinity"
  | Finite q => pretty (Z.quot (Qnum q) (Z.pos (Qden q)))
  end.

(** An address is valid when it is a string with something other than spaces
    in it. *)
Definition sample_waypointHasValidAddress (waypoint : jsvalue) : bool :=
  match get waypoint "address" with
  | VStr s => negb (forallb (λ c, bool_decide (c = Ascii.Space)) (String.list_ascii_of_string s))
  | _ => false
  end.

Definition sample_imports : Imports := {|
  ONYXKEYS_NVP_RECENT_WAYPOINTS := "expensify_recentWaypoints";
  ONYXKEYS_COLLECTION_TRANSACTION := "transactions_";
  ONYXKEYS_COLLECTION_TRANSACTION_DRAFT := "transactionsDraft_";
  CONST_YOUR_LOCATION_TEXT := "Your Location";
  TransactionUtils_waypointHasValidAddress := sample_waypointHasValidAddress;
  Number := sample_Number;
  Number_toString := sample_Number_toString;
|}.

Definition place (address : string) (lat lng : Z) : Obj :=
  [("address", VStr address); ("lat", VNum (number_of_Z lat));
   ("lng", VNum (number_of_Z lng))].

Definition stop_A : Obj := place "1 Main St" 10 20.
Definition stop_B : Obj := place "2 Oak Ave" 11 21.
Definition stop_C : Obj := place "3 Pine Rd" 12 22.

Definition sample_transaction (waypoints : Obj) : Obj :=
  [("transactionID", VStr "t1"); ("amount", VNum (number_of_Z 500));
   ("comment", VObj [("waypoints", VObj waypoints)]);
   ("errorFields", VObj [("route", VStr "old error")]);
   ("routes",
    VObj [("route0",
           VObj [("distance", VNum (number_of_Z 42));
                 ("geometry", VObj [("coordinates", VArr [VNum (number_of_Z 1)])])])])].

Definition three_stops : Obj :=
  [("waypoint0", VObj stop_A); ("waypoint1", VObj stop_B); ("waypoint2", VObj stop_C)].

Definition two_stops : Obj :=
  [("waypoint0", VObj stop_A); ("waypoint1", VObj stop_B)].

Definition sample_mirror : Mirror := {|
  recentWaypoints := [stop_A];
  allTransactions := {[ "t1" := sample_transaction two_stops ]};
|}.

Definition sample_store (waypoints : Obj) : gmap string jsvalue :=
  {[ "transactions_t1" := VObj (sample_transaction waypoints) ]}.

(** ** The subscriptions that feed the mirrors *)

(** [CollectionUtils.extractCollectionItemID], imported by the module and
    not among the source files. *)
Class CollectionUtils : Type := {
  extractCollectionItemID : string → string;
}.

(** The callback of the subscription to the recent waypoints:
    [(val) => (recentWaypoints = val ?? [])]. *)
Definition recentWaypoints_callback (val : option (list Obj)) (mirror : Mirror)
    : Mirror :=
  {| recentWaypoints := default [] val;
     allTransactions := allTransactions mirror |}.

(** A key handed to a collection callback: a string or undefined. *)
Definition key_value (k : option string) : jsvalue :=
  match k with
  | Some s => VStr s
  | None => VUndefined
  end.

(** The callback of the subscription to the transaction collection. *)
Definition allTransactions_callback `{!CollectionUtils}
    (transaction : option Obj) (k : option string) (mirror : Mirror) : Mirror :=
  if negb (truthy (key_value k)) || negb (truthy (entry transaction)) then mirror
  else
    match k, transaction with
    | Some k, Some transaction =>
        let transactionID := extractCollectionItemID k in
        {| recentWaypoints := recentWaypoints mirror;
           allTransactions := <[transactionID := transaction]> (allTransactions mirror) |}
    | _, _ => mirror
    end.

(** ** The three phases of a route request *)




(** ** The report list of the sidebar ([SidebarLinksData.tsx]) *)

(** What one run of the component sees: the props and hook results that the
    list depends on.  [orderedReportIDs] is
    [SidebarUtils.getOrderedReportIDs] with this run's data applied, still
    waiting for its first argument, the current report. *)
Record Render : Type := {
  orderedReportIDs : option string → list string;
  isLoadingApp : jsvalue;
  isOffline : jsvalue;
  priorityMode : jsvalue;
  prevPriorityMode : jsvalue;
  currentReportID : option string;
}.

(** A parameter with a default, [x = d]: the default stands in for
    undefined only. *)
Definition default_parameter (v d : jsvalue) : jsvalue :=
  match v with
  | VUndefined => d
  | _ => v
  end.

(** [deepEqual(reportIDsRef.current, reportIDs)] *)
Definition deepEqual_ids (current : option (list string)) (reportIDs : list string)
    : bool :=
  match current with
  | Some ids => bool_decide (ids = reportIDs)
  | None => false
  end.

(** The body of the first [useMemo]: the ref afterwards and the value
    returned. *)
Definition optionListItems (reportIDsRef : option (list string)) (r : Render)
    : option (list string) * option (list string) :=
  let isLoading := default_parameter (isLoadingApp r) (VBool true) in
  let reportIDs := orderedReportIDs r None in
  if deepEqual_ids reportIDsRef reportIDs then (reportIDsRef, reportIDsRef)
  else
    let reportIDsRef :=
      if negb (truthy isLoading)
         || negb (bool_decide (is_Some reportIDsRef))
         || truthy (isOffline r)
         || (bool_decide (is_Some reportIDsRef)
             && negb (strict_equals (prevPriorityMode r) (priorityMode r)))
      then Some reportIDs
      else reportIDsRef in
    (reportIDsRef, Some (default [] reportIDsRef)).

(** [optionListItems?.includes(currentReportID)] *)
Definition includes (items : option (list string)) (x : string) : jsvalue :=
  match items with
  | Some l => VBool (bool_decide (x ∈ l))
  | None => VUndefined
  end.

(** The body of the second [useMemo]. *)
Definition optionListItemsWithCurrentReport (r : Render)
    (optionListItems : option (list string)) : option (list string) :=
  match currentReportID r with
  | Some id =>
      if truthy (VStr id) && negb (truthy (includes optionListItems id))
      then Some (orderedReportIDs r (Some id))
      else optionListItems
  | None => optionListItems
  end.

(** One run of the component: the ref afterwards and the list handed to
    [SidebarLinks]. *)
Definition SidebarLinksData (reportIDsRef : option (list string)) (r : Render)
    : option (list string) * option (list string) :=
  let memo := optionListItems reportIDsRef r in
  (memo.1, optionListItemsWithCurrentReport r memo.2).

(** Successive runs, each starting from the ref the one before left. *)
Fixpoint renders (reportIDsRef : option (list string)) (rs : list Render)
    : option (list string) * list (option (list string)) :=
  match rs with
  | [] => (reportIDsRef, [])
  | r :: rs' =>
      let run := SidebarLinksData reportIDsRef r in
      let rest := renders run.1 rs' in
      (rest.1, run.2 :: rest.2)
  end.

(** ** The report-action selector ([SidebarLinksData.tsx]) *)

(** [v[0]] *)
Definition get_first (v : jsvalue) : jsvalue :=
  match v with
  | VArr items => default VUndefined (items !! 0%nat)
  | VStr s => default VUndefined (string_chars s !! 0%nat)
  | VObj o => obj_get "0" o
  | _ => VUndefined
  end.

(** The callback of the [map]: [None] when it throws a TypeError, which is
    what reading a property of null or undefined does. *)
Definition select_reportAction (reportAction : jsvalue) : option jsvalue :=
  if nullish reportAction then None
  else
    let reportActionID := get reportAction "reportActionID" in
    let actionName := get reportAction "actionName" in
    let errors := get reportAction "errors" in
    decision ←
      (if nullish (get reportAction "message") then Some VUndefined
       else if nullish (get_first (get reportAction "message")) then None
       else
         let moderationDecision :=
           get (get_first (get reportAction "message")) "moderationDecision" in
         Some (get moderationDecision "decision"));
    Some (VObj [("reportActionID", reportActionID);
                ("actionName", actionName);
                ("errors", errors);
                ("message",
                 VArr [VObj [("moderationDecision", VObj [("decision", decision)])]])]).

(** [reportActions && Object.values(reportActions).map(...)] *)
Definition reportActionsSelector (reportActions : jsvalue) : option jsvalue :=
  if negb (truthy reportActions) then Some reportActions
  else VArr <$> mapM select_reportAction (Object_values reportActions).

(** ** Deduplication of the recent waypoints *)

(** No two entries of the list have strictly equal addresses. *)
Definition distinct_addresses (l : list jsvalue) : Prop :=
  ∀ (i j : nat) x y, l !! i = Some x → l !! j = Some y → i ≠ j →
    strict_equals (get x "address") (get y "address") = false.

(** ** More concrete data, for the examples *)

(** [Number] on decimal integer literals with an optional minus sign; as
    [sample_Number] otherwise. *)
Definition signed_Number (s : string) : number :=
  match s with
  | String c digits =>
      if bool_decide (String c "" = "-") then
        match digits, DecimalString.NilEmpty.uint_of_string digits with
        | String _ _, Some d => number_of_Z (- Z.of_uint d)
        | _, _ => NaN
        end
      else sample_Number s
  | _ => sample_Number s
  end.

Definition signed_imports : Imports := {|
  ONYXKEYS_NVP_RECENT_WAYPOINTS := "expensify_recentWaypoints";
  ONYXKEYS_COLLECTION_TRANSACTION := "transactions_";
  ONYXKEYS_COLLECTION_TRANSACTION_DRAFT := "transactionsDraft_";
  CONST_YOUR_LOCATION_TEXT := "Your Location";
  TransactionUtils_waypointHasValidAddress := sample_waypointHasValidAddress;
  Number := signed_Number;
  Number_toString := sample_Number_toString;
|}.

(** The item id of a collection key: what follows its last underscore. *)
Fixpoint after_last_underscore (s rest : string) : string :=
  match s with
  | String c s' =>
      if bool_decide (String c "" = "_") then after_last_underscore s' s'
      else after_last_underscore s' rest
  | _ => rest
  end.

Definition sample_extractCollectionItemID (k : string) : string :=
  after_last_underscore k k.

Definition sample_CollectionUtils : CollectionUtils := {|
  extractCollectionItemID := sample_extractCollectionItemID;
|}.

(** A run of the sidebar while the app loads, and one after. *)
Definition loading_render (ids : list string) (current : option string) : Render := {|
  orderedReportIDs := λ currentReportID,
    match currentReportID with
    | Some id => id :: ids
    | None => ids
    end;
  isLoadingApp := VUndefined;
  isOffline := VBool false;
  priorityMode := VStr "default";
  prevPriorityMode := VStr "default";
  currentReportID := current;
|}.

Definition settled_render (ids : list string) : Render := {|
  orderedReportIDs := λ _, ids;
  isLoadingApp := VBool false;
  isOffline := VBool false;
  priorityMode := VStr "default";
  prevPriorityMode := VStr "default";
  currentReportID := None;
|}.

Definition sample_reportAction (reportActionID decision : string) : jsvalue :=
  VObj [("reportActionID", VStr reportActionID); ("actionName", VStr "ADDCOMMENT");
        ("created", VStr "2023-11-01");
        ("message",
         VArr [VObj [("text", VStr "hello");
                     ("moderationDecision", VObj [("decision", VStr decision)])]])].

Definition odd_keys_transaction : Obj :=
  [("transactionID", VStr "t1");
   ("comment",
    VObj [("waypoints",
           VObj [("stop1", VObj stop_A); ("stop5", VObj stop_B); ("stop9", VObj stop_C)])])].

Definition gap_stops : Obj :=
  [("waypoint0", VObj stop_A); ("waypoint2", VObj stop_C)].

(** The transaction an action writes, undefined if it writes none. *)
Definition the_written (m : M unit) : jsvalue :=
  default VUndefined (written_transaction m).

(** ** Objects: reading after writing *)

Lemma obj_get_set_eq k v o : obj_get k (obj_set k v o) = v.
Proof.
  induction o as [|[k' v'] o IH]; simpl.
  - by rewrite decide_True.
  - destruct (decide (k' = k)) as [->|Hne]; simpl.
    + by rewrite decide_True.
    + by rewrite decide_False.
Qed.

Lemma obj_get_set_ne k k' v o : k ≠ k' → obj_get k' (obj_set k v o) = obj_get k' o.
Proof.
  intros Hne. induction o as [|[k0 v0] o IH]; simpl.
  - by rewrite decide_False.
  - destruct (decide (k0 = k)) as [->|Hne0]; simpl.
    + by rewrite !decide_False.
    + by rewrite IH.
Qed.

Lemma obj_set_fresh k v o : k ∉ o.*1 → obj_set k v o = o ++ [(k, v)].
Proof.
  induction o as [|[k' v'] o IH]; simpl; [done|].
  intros Hnotin. apply not_elem_of_cons in Hnotin as [Hne Hnotin].
  rewrite decide_False by done. by rewrite IH.
Qed.

Ltac obj_get_simpl :=
  repeat first
    [ rewrite obj_get_set_eq
    | rewrite obj_get_set_ne by (done || congruence) ].

(** ** Keys [waypointN] *)

Lemma waypoint_key_inj (i j : nat) : waypoint_key i = waypoint_key j → i = j.
Proof.
  unfold waypoint_key. intros Heq.
  apply (inj (String.app "waypoint")) in Heq. by apply (inj pretty) in Heq.
Qed.

Lemma length_waypoint_keys (k : nat) : length (waypoint_keys k) = k.
Proof. unfold waypoint_keys. by rewrite length_fmap, length_seq. Qed.

Lemma forEach_from_reindex (idx : nat) (l : list jsvalue) (acc : Obj) :
  (∀ j : nat, (idx ≤ j)%nat → waypoint_key j ∉ acc.*1) →
  forEach_from idx l (λ waypoint i o, obj_set ("waypoint" +:+ pretty i) waypoint o) acc
  = acc ++ zip (waypoint_key <$> seq idx (length l)) l.
Proof.
  revert idx acc. induction l as [|x l IH]; intros idx acc Hfresh; simpl.
  - by rewrite app_nil_r.
  - change ("waypoint" +:+ pretty idx) with (waypoint_key idx).
    rewrite obj_set_fresh by (apply Hfresh; lia).
    rewrite IH.
    + rewrite <- app_assoc. simpl. by rewrite Nat.add_1_r.
    + intros j Hj. rewrite fmap_app. simpl.
      rewrite elem_of_app, list_elem_of_singleton.
      intros [Hin|Heq]; [by apply (Hfresh j); [lia|]|].
      apply waypoint_key_inj in Heq. lia.
Qed.

Lemma forEach_reindex (l : list jsvalue) :
  forEach l (λ waypoint i o, obj_set ("waypoint" +:+ pretty i) waypoint o) ([] : Obj)
  = zip (waypoint_keys (length l)) l.
Proof.
  unfold forEach. rewrite forEach_from_reindex; [done|].
  intros j _. simpl. apply not_elem_of_nil.
Qed.

Lemma zip_waypoint_keys_fst (l : list jsvalue) : (zip (waypoint_keys (length l)) l).*1 = waypoint_keys (length l).
Proof. apply fst_zip. by rewrite length_waypoint_keys. Qed.

Lemma zip_waypoint_keys_snd (l : list jsvalue) : (zip (waypoint_keys (length l)) l).*2 = l.
Proof. apply snd_zip. by rewrite length_waypoint_keys. Qed.

(** ** Numbers and [splice] *)

Lemma ToIntegerOrInfinity_of_Z z : ToIntegerOrInfinity (number_of_Z z) = Integer z.
Proof. simpl. by rewrite Z.quot_1_r. Qed.

Lemma number_strict_equals_of_Z a b :
  number_strict_equals (number_of_Z a) (number_of_Z b) = bool_decide (a = b).
Proof.
  unfold number_strict_equals, number_of_Z. apply bool_decide_ext. split.
  - intros Heq. apply Z2Qc_inj. congruence.
  - by intros ->.
Qed.

Lemma number_strict_equals_NaN_l n : number_strict_equals NaN n = false.
Proof. done. Qed.

Lemma relative_start_of_nat (len i : nat) :
  (i ≤ len)%nat → relative_start len (number_of_nat i) = i.
Proof.
  intros Hle. unfold relative_start, number_of_nat.
  rewrite ToIntegerOrInfinity_of_Z. rewrite decide_False by lia. lia.
Qed.

Lemma relative_start_NaN len : relative_start len NaN = 0%nat.
Proof. unfold relative_start. simpl. lia. Qed.

Lemma splice_remove_at (l : list jsvalue) (i : nat) x :
  l !! i = Some x →
  splice l (number_of_nat i) 1 [] = ([x], take i l ++ drop (S i) l).
Proof.
  intros Hx. pose proof (lookup_lt_Some _ _ _ Hx) as Hlt.
  unfold splice. rewrite relative_start_of_nat by lia.
  replace (1 `min` (length l - i))%nat with 1%nat by lia.
  rewrite (drop_S _ _ _ Hx). simpl. by rewrite Nat.add_1_r.
Qed.

Lemma splice_insert_at (l : list jsvalue) (i : nat) x :
  (i ≤ length l)%nat →
  (splice l (number_of_nat i) 0 [x]).2 = take i l ++ x :: drop i l.
Proof.
  intros Hle. unfold splice. rewrite relative_start_of_nat by lia.
  simpl. by rewrite Nat.add_0_r.
Qed.

Lemma splice_remove_NaN (x : jsvalue) (l : list jsvalue) :
  splice (x :: l) NaN 1 [] = ([x], l).
Proof. unfold splice. rewrite relative_start_NaN. simpl. by rewrite drop_0. Qed.

(** At an index past the last element there is nothing to remove. *)
Lemma splice_nothing_past_the_end (l : list jsvalue) (i : nat) :
  (length l ≤ i)%nat → (splice l (number_of_nat i) 1 []).1 = [].
Proof.
  intros Hle. unfold splice. cbn [fst]. unfold relative_start, number_of_nat.
  rewrite ToIntegerOrInfinity_of_Z. rewrite decide_False by lia.
  replace (Z.to_nat (Z.of_nat i `min` Z.of_nat (length l))) with (length l) by lia.
  by rewrite drop_all, take_nil.
Qed.

(** [splice(index, 1)] removes at most one element. *)
Lemma splice_one_removed (l : list jsvalue) index :
  (splice l index 1 []).1 = [] ∨ ∃ x, (splice l index 1 []).1 = [x].
Proof.
  unfold splice. cbn [fst].
  destruct (drop (relative_start (length l) index) l) as [|x l'] eqn:Hdrop.
  - left. by rewrite take_nil.
  - destruct (1 `min` (length l - relative_start (length l) index))%nat
      as [|[|n]] eqn:Hmin; [left; done | right; exists x; done | lia].
Qed.

(** ** Merging a patch *)

Lemma get_deep_merge_singleton target k v k' :
  get (deep_merge target (VObj [(k, v)])) k'
  = if decide (k = k') then deep_merge (get target k) v else get target k'.
Proof.
  destruct target; simpl;
    try (destruct (decide (k = k')) as [->|Hne];
         [by rewrite ?decide_True by done; destruct v
         |by rewrite ?decide_False by done]).
  destruct (decide (k = k')) as [->|Hne].
  - by rewrite obj_get_set_eq.
  - by rewrite obj_get_set_ne.
Qed.

Lemma deep_merge_non_object target source :
  (∀ o, target ≠ VObj o) → deep_merge target source = source.
Proof. intros Hnot. destruct source; try done. destruct target; try done. by edestruct Hnot. Qed.

Lemma obj_get_absent f (o : Obj) : f ∉ o.*1 → obj_get f o = VUndefined.
Proof.
  induction o as [|[k v] o IH]; [done|]. cbn [fmap list_fmap fst obj_get].
  intros Hf. apply not_elem_of_cons in Hf as [Hne Hf].
  rewrite decide_False by done. by apply IH.
Qed.

Lemma obj_get_deep_merge (o changes : Obj) f :
  NoDup changes.*1 →
  get (deep_merge (VObj o) (VObj changes)) f
  = if decide (f ∈ changes.*1)
    then deep_merge (obj_get f o) (obj_get f changes)
    else obj_get f o.
Proof.
  cbn [deep_merge get]. revert o.
  induction changes as [|[k v] changes IH]; intros o Hnodup.
  { rewrite decide_False; [done|]. apply not_elem_of_nil. }
  cbn [fmap list_fmap fst] in *. apply NoDup_cons in Hnodup as [Hk Hnodup].
  rewrite IH by done. cbn [obj_get].
  destruct (decide (k = f)) as [->|Hne].
  - rewrite (decide_False (P := f ∈ changes.*1)) by done.
    rewrite decide_True by (by left). by rewrite obj_get_set_eq.
  - rewrite obj_get_set_ne by done.
    destruct (decide (f ∈ changes.*1)) as [Hin|Hnotin].
    + rewrite decide_True by (by right). done.
    + rewrite decide_False; [done|]. by apply not_elem_of_cons.
Qed.

Lemma get_deep_merge_other (o changes : Obj) f :
  f ∉ changes.*1 → get (deep_merge (VObj o) (VObj changes)) f = obj_get f o.
Proof.
  cbn [deep_merge get]. revert o.
  induction changes as [|[k v] changes IH]; intros o Hf; [done|].
  cbn [fmap list_fmap fst] in Hf. apply not_elem_of_cons in Hf as [Hne Hf].
  rewrite IH by done. by rewrite obj_get_set_ne.
Qed.

(** A property of the stored value after a patch with distinct keys: merged
    with the patch's property if the patch has one, untouched otherwise. *)
Lemma get_deep_merge target (changes : Obj) f :
  NoDup changes.*1 →
  get (deep_merge target (VObj changes)) f
  = if decide (f ∈ changes.*1)
    then deep_merge (get target f) (obj_get f changes)
    else get target f.
Proof.
  intros Hnodup.
  destruct target; try by apply obj_get_deep_merge.
  all: cbn [deep_merge get]; destruct (decide (f ∈ changes.*1));
    [by rewrite deep_merge_non_object | by apply obj_get_absent].
Qed.

(** ** Reading the store after a merge *)

Lemma stored_merge_eq (store : gmap string jsvalue) k changes :
  stored (apply_call store (Onyx_merge_call k changes)) k
  = deep_merge (stored store k) changes.
Proof.
  unfold stored, apply_call, apply_update. cbn [onyxMethod key value].
  by rewrite lookup_insert_eq.
Qed.

Lemma stored_merge_ne (store : gmap string jsvalue) k k' changes :
  k ≠ k' →
  stored (apply_call store (Onyx_merge_call k changes)) k' = stored store k'.
Proof.
  intros Hne. unfold stored, apply_call, apply_update. cbn [onyxMethod key value].
  by rewrite lookup_insert_ne.
Qed.

(** ** What [removeWaypoint] writes *)

Section Facts.
Context `{!Imports}.

Lemma get_entry tx f : get (entry tx) f = obj_get f (own_props (entry tx)).
Proof. by destruct tx. Qed.

Lemma removeWaypoint_nothing_removed tx currentIndex isDraft :
  (splice (Object_values (waypoints_of (entry tx) ?? VObj []))
     (Number currentIndex) 1 []).1 = [] →
  removeWaypoint tx currentIndex isDraft = mret tt.
Proof.
  intros Hnone. unfold removeWaypoint, waypoints_of in *. cbv zeta.
  by rewrite Hnone.
Qed.

Lemma removeWaypoint_written tx currentIndex isDraft r :
  let t := entry tx in
  let existingWaypoints := waypoints_of t ?? VObj [] in
  let after := waypointValues_after existingWaypoints (Number currentIndex) in
  (splice (Object_values existingWaypoints) (Number currentIndex) 1 []).1 = [r] →
  ∃ newTransaction,
    calls (removeWaypoint tx currentIndex isDraft)
    = [Onyx_set_call
         ((if isDraft then ONYXKEYS_COLLECTION_TRANSACTION_DRAFT
           else ONYXKEYS_COLLECTION_TRANSACTION)
            +:+ ToString (get t "transactionID"))
         (VObj newTransaction)]
    ∧ obj_get "comment" newTransaction
      = VObj (obj_set "waypoints" (VObj (zip (waypoint_keys (length after)) after))
                (own_props (get t "comment")))
    ∧ (TransactionUtils_waypointHasValidAddress (r ?? VObj []) = false →
       obj_get "errorFields" newTransaction = get t "errorFields"
       ∧ obj_get "routes" newTransaction = get t "routes")
    ∧ (TransactionUtils_waypointHasValidAddress (r ?? VObj []) = true →
       obj_get "errorFields" newTransaction = cleared_errorFields
       ∧ obj_get "routes" newTransaction = cleared_routes)
    ∧ (∀ f d, (f, d) ∈ scalar_defaults → obj_get f newTransaction = get t f ?? d)
    ∧ (∀ f, f ∉ "comment" :: "errorFields" :: "routes" :: scalar_defaults.*1 →
       obj_get f newTransaction = get t f).
Proof.
  intros t existingWaypoints after Hone.
  unfold removeWaypoint. cbv zeta.
  fold t. change (get (get t "comment") "waypoints") with (waypoints_of t).
  fold existingWaypoints. rewrite Hone.
  change (bool_decide (length [r] = 0)) with false. cbv iota.
  change ([r] !! 0) with (Some r).
  change (default VUndefined (Some r)) with r.
  change (bool_decide (0 < length [r])) with true.
  rewrite andb_true_l, negb_involutive.
  fold (waypointValues_after existingWaypoints (Number currentIndex)). fold after.
  rewrite forEach_reindex.
  destruct (TransactionUtils_waypointHasValidAddress (r ?? VObj [])) eqn:Hvalid;
    cbn [negb]; eexists;
    (split; [by destruct isDraft|]);
    cbn [object_literal foldl fst snd];
    (split; [by obj_get_simpl|]).
  - split; [done|]. split; [intros _; split; by obj_get_simpl|]. split.
    + intros f d Hin. unfold scalar_defaults in Hin.
      rewrite !elem_of_cons, elem_of_nil in Hin.
      destruct_or!; try done; simplify_eq; by obj_get_simpl.
    + intros f Hnotin. cbn [scalar_defaults fmap list_fmap fst] in Hnotin.
      rewrite !not_elem_of_cons in Hnotin. destruct_and!.
      obj_get_simpl. symmetry. apply get_entry.
  - split; [intros _; split; obj_get_simpl; symmetry; apply get_entry|].
    split; [done|]. split.
    + intros f d Hin. unfold scalar_defaults in Hin.
      rewrite !elem_of_cons, elem_of_nil in Hin.
      destruct_or!; try done; simplify_eq; by obj_get_simpl.
    + intros f Hnotin. cbn [scalar_defaults fmap list_fmap fst] in Hnotin.
      rewrite !not_elem_of_cons in Hnotin. destruct_and!.
      obj_get_simpl. symmetry. apply get_entry.
Qed.

End Facts.

Section RemoveWaypoint.
Context `{!Imports}.

Lemma removeWaypoint_written_waypoints tx currentIndex isDraft r :
  let existingWaypoints := waypoints_of (entry tx) ?? VObj [] in
  let after := waypointValues_after existingWaypoints (Number currentIndex) in
  (splice (Object_values existingWaypoints) (Number currentIndex) 1 []).1 = [r] →
  ∃ newTransaction,
    written_transaction (removeWaypoint tx currentIndex isDraft) = Some newTransaction
    ∧ waypoints_of newTransaction = VObj (zip (waypoint_keys (length after)) after).
Proof.
  intros existingWaypoints after Hone.
  destruct (removeWaypoint_written tx currentIndex isDraft r Hone)
    as (newTransaction & Hcalls & Hcomment & _).
  exists (VObj newTransaction). split.
  - unfold written_transaction. by rewrite Hcalls.
  - unfold waypoints_of. simpl. rewrite Hcomment. simpl.
    by rewrite obj_get_set_eq.
Qed.

Lemma waypointValues_after_in_range (ws : Obj) (i : nat) :
  (i < length ws)%nat →
  waypointValues_after (VObj ws) (number_of_nat i)
  = take i ws.*2 ++ (if decide (length ws = 2) then [VObj []] else [])
      ++ drop (S i) ws.*2.
Proof.
  intros Hlt. unfold waypointValues_after, Object_keys, Object_values.
  cbn [own_props]. rewrite length_fmap.
  destruct (lookup_lt_is_Some_2 ws.*2 i) as [x Hx]; [by rewrite length_fmap|].
  rewrite (splice_remove_at _ _ _ Hx). cbn [snd].
  unfold number_of_nat at 1 2. rewrite !number_strict_equals_of_Z.
  destruct (decide (length ws = 2)) as [Htwo|Hne].
  - rewrite (bool_decide_eq_true_2 _ Htwo). cbn [andb].
    replace (bool_decide (Z.of_nat i = 0%Z)
             || bool_decide (Z.of_nat i = (Z.of_nat (length ws) - 1)%Z))
      with true.
    2:{ symmetry. apply orb_true_iff. rewrite !bool_decide_eq_true. lia. }
    assert (Hlen : length (take i ws.*2) = i)
      by (rewrite length_take, length_fmap; lia).
    rewrite splice_insert_at by (rewrite length_app, Hlen; lia).
    rewrite take_app_length', drop_app_length' by done. done.
  - rewrite (bool_decide_eq_false_2 _ Hne). done.
Qed.

(** C9: when the splice of the waypoint values removes nothing, because no
    waypoint exists at the index, [removeWaypoint] returns before any store
    call, so whatever the store holds stays as it is. *)
Theorem removeWaypoint_returns_early_without_write tx currentIndex isDraft :
  (splice (Object_values (waypoints_of (entry tx) ?? VObj []))
     (Number currentIndex) 1 []).1 = [] →
  calls (removeWaypoint tx currentIndex isDraft) = []
  ∧ ∀ store, run store (calls (removeWaypoint tx currentIndex isDraft)) = store.
Proof.
  intros Hnone.
  rewrite (removeWaypoint_nothing_removed _ _ _ Hnone). by split.
Qed.

(** C10: when [Number(currentIndex)] is NaN, the splice starts at 0: on a
    transaction with at least one waypoint the first waypoint is removed and
    the transaction is written, with the remaining waypoints re-indexed and
    nothing reinserted. *)
Theorem removeWaypoint_NaN_index_removes_first tx currentIndex isDraft first rest :
  Number currentIndex = NaN →
  Object_values (waypoints_of (entry tx) ?? VObj []) = first :: rest →
  (splice (first :: rest) (Number currentIndex) 1 []).1 = [first]
  ∧ ∃ newTransaction,
      written_transaction (removeWaypoint tx currentIndex isDraft) = Some newTransaction
      ∧ waypoints_of newTransaction = VObj (zip (waypoint_keys (length rest)) rest).
Proof.
  intros HNaN Hvalues.
  assert (Hone : (splice (Object_values (waypoints_of (entry tx) ?? VObj []))
                    (Number currentIndex) 1 []).1 = [first])
    by (by rewrite Hvalues, HNaN, splice_remove_NaN).
  split; [by rewrite HNaN, splice_remove_NaN|].
  destruct (removeWaypoint_written_waypoints tx currentIndex isDraft first Hone)
    as (newTransaction & Hwritten & Hwaypoints).
  exists newTransaction. split; [done|].
  rewrite Hwaypoints. unfold waypointValues_after.
  rewrite HNaN, !number_strict_equals_NaN_l, andb_false_r.
  by rewrite Hvalues, splice_remove_NaN.
Qed.

(** C3: on a transaction with exactly two waypoints, removing index 0 or
    index 1 writes a mapping that again has exactly two entries: an empty
    waypoint at the removed position and the other original waypoint at the
    opposite index. *)
Theorem removeWaypoint_two_stops_keeps_two_slots
    tx currentIndex isDraft (i : nat) k0 v0 k1 v1 :
  waypoints_of (entry tx) = VObj [(k0, v0); (k1, v1)] →
  Number currentIndex = number_of_nat i →
  i = 0%nat ∨ i = 1%nat →
  ∃ newTransaction,
    written_transaction (removeWaypoint tx currentIndex isDraft) = Some newTransaction
    ∧ waypoints_of newTransaction
      = VObj (if decide (i = 0%nat)
              then [("waypoint0", VObj []); ("waypoint1", v1)]
              else [("waypoint0", v0); ("waypoint1", VObj [])]).
Proof.
  intros Hws Hindex Hi.
  assert (Hx : ∃ x, [v0; v1] !! i = Some x)
    by (destruct Hi as [->| ->]; eauto).
  destruct Hx as [x Hx].
  assert (Hone : (splice (Object_values (waypoints_of (entry tx) ?? VObj []))
                    (Number currentIndex) 1 []).1 = [x]).
  { rewrite Hws, Hindex. change (Object_values _) with [v0; v1].
    by rewrite (splice_remove_at _ _ _ Hx). }
  destruct (removeWaypoint_written_waypoints tx currentIndex isDraft x Hone)
    as (newTransaction & Hwritten & Hwaypoints).
  exists newTransaction. split; [done|].
  rewrite Hwaypoints, Hws, Hindex.
  change (VObj [(k0, v0); (k1, v1)] ?? VObj []) with (VObj [(k0, v0); (k1, v1)]).
  rewrite waypointValues_after_in_range by (simpl; lia).
  by destruct Hi as [->| ->].
Qed.

(** C4: for an in-range removal index, the mapping [removeWaypoint] writes
    has exactly the keys [waypoint0] to [waypoint(k-1)] for its [k] entries,
    and its values are the original ones in their original order without the
    removed one (plus the empty waypoint put back at the removed position on
    a two-stop trip); removing the middle of three waypoints leaves the two
    others, in order, with nothing reinserted. *)
Theorem removeWaypoint_reindexes_contiguously
    tx currentIndex isDraft (ws : Obj) (i : nat) :
  waypoints_of (entry tx) = VObj ws →
  Number currentIndex = number_of_nat i →
  (i < length ws)%nat →
  ∃ newTransaction written,
    written_transaction (removeWaypoint tx currentIndex isDraft) = Some newTransaction
    ∧ waypoints_of newTransaction = VObj written
    ∧ written.*1 = waypoint_keys (length written)
    ∧ written.*2
      = take i ws.*2 ++ (if decide (length ws = 2) then [VObj []] else [])
          ++ drop (S i) ws.*2
    ∧ (∀ a b c, ws.*2 = [a; b; c] → i = 1%nat →
       written = [("waypoint0", a); ("waypoint1", c)]).
Proof.
  intros Hws Hindex Hlt.
  destruct (lookup_lt_is_Some_2 ws.*2 i) as [x Hx]; [by rewrite length_fmap|].
  assert (Hone : (splice (Object_values (waypoints_of (entry tx) ?? VObj []))
                    (Number currentIndex) 1 []).1 = [x]).
  { rewrite Hws, Hindex. change (Object_values _) with ws.*2.
    by rewrite (splice_remove_at _ _ _ Hx). }
  destruct (removeWaypoint_written_waypoints tx currentIndex isDraft x Hone)
    as (newTransaction & Hwritten & Hwaypoints).
  rewrite Hws, Hindex in Hwaypoints.
  change (VObj ws ?? VObj []) with (VObj ws) in Hwaypoints.
  rewrite waypointValues_after_in_range in Hwaypoints by done.
  eexists newTransaction, _. split; [done|]. split; [exact Hwaypoints|].
  rewrite zip_waypoint_keys_fst, zip_waypoint_keys_snd.
  split; [by rewrite length_zip, length_waypoint_keys, Nat.min_id|].
  split; [done|].
  intros a b c Hvalues ->.
  assert (Hlen : length ws = 3%nat) by (by rewrite <- (length_fmap snd), Hvalues).
  rewrite Hvalues. rewrite decide_False by lia. done.
Qed.

End RemoveWaypoint.

Section RemoveWaypointFrame.
Context `{!Imports}.

(** C7: when the removed waypoint has no valid address, the transaction
    [removeWaypoint] writes carries the input's [errorFields] and [routes]
    as they were; when it has one, [errorFields.route],
    [routes.route0.distance] and [routes.route0.geometry.coordinates] are
    null.  Every other field is the input's: the ten scalar fields with their
    default when the input has none (null or undefined), the comment's own
    properties apart from [waypoints], and all remaining fields untouched. *)
Theorem removeWaypoint_clears_route_only_for_valid_address
    tx currentIndex isDraft removed :
  (splice (Object_values (waypoints_of (entry tx) ?? VObj []))
     (Number currentIndex) 1 []).1 = [removed] →
  ∃ newTransaction,
    written_transaction (removeWaypoint tx currentIndex isDraft) = Some newTransaction
    ∧ (TransactionUtils_waypointHasValidAddress (removed ?? VObj []) = false →
       get newTransaction "errorFields" = get (entry tx) "errorFields"
       ∧ get newTransaction "routes" = get (entry tx) "routes")
    ∧ (TransactionUtils_waypointHasValidAddress (removed ?? VObj []) = true →
       get newTransaction "errorFields" = VObj [("route", VNull)]
       ∧ get newTransaction "routes"
         = VObj [("route0",
                  VObj [("distance", VNull);
                        ("geometry", VObj [("coordinates", VNull)])])])
    ∧ (∀ f d, (f, d) ∈ scalar_defaults →
       get newTransaction f = get (entry tx) f ?? d)
    ∧ (∀ f, f ≠ "waypoints" →
       get (get newTransaction "comment") f
       = obj_get f (own_props (get (entry tx) "comment")))
    ∧ (∀ f, f ∉ "comment" :: "errorFields" :: "routes" :: scalar_defaults.*1 →
       get newTransaction f = get (entry tx) f).
Proof.
  intros Hone.
  destruct (removeWaypoint_written tx currentIndex isDraft removed Hone)
    as (newTransaction & Hcalls & Hcomment & Hempty & Hvalid & Hdefaults & Hother).
  exists (VObj newTransaction). cbn [get].
  split; [unfold written_transaction; by rewrite Hcalls|].
  repeat split; try done; try (by apply Hempty); try (by apply Hvalid).
  intros f Hf. rewrite Hcomment. cbn [get]. by rewrite obj_get_set_ne.
Qed.

End RemoveWaypointFrame.

Section SaveWaypoint.
Context `{!Imports}.

Lemma saveWaypoint_calls mirror transactionID index waypoint isDraft :
  calls (saveWaypoint mirror transactionID index waypoint isDraft)
  = Onyx_merge_call
      ((if isDraft then ONYXKEYS_COLLECTION_TRANSACTION
        else ONYXKEYS_COLLECTION_TRANSACTION_DRAFT) +:+ transactionID)
      (VObj [("comment",
              VObj [("waypoints", VObj [("waypoint" +:+ index, entry waypoint)])]);
             ("errorFields", VObj [("route", VNull)]);
             ("routes",
              VObj [("route0", VObj [("geometry", VObj [("coordinates", VNull)])])])])
    :: (if saves_recent mirror waypoint
        then [Onyx_merge_call ONYXKEYS_NVP_RECENT_WAYPOINTS
                (VArr (take 5 (entry waypoint :: (VObj <$> recentWaypoints mirror))))]
        else []).
Proof.
  unfold saveWaypoint, saves_recent, calls. cbn [mbind M_bind Onyx_merge fst snd app].
  f_equal.
  destruct (lodashHas (entry waypoint) "lat"); [|done].
  destruct (lodashHas (entry waypoint) "lng"); [|done].
  destruct (isEqual_string _ _); [done|].
  cbn [negb orb andb].
  by destruct (negb (truthy _) && negb (strict_equals (entry waypoint) VNull)).
Qed.

Lemma truthy_find (l : list Obj) p :
  truthy (find l p) = true ↔ ∃ x, x ∈ l ∧ p x = true.
Proof.
  unfold find. destruct (List.find p l) as [x|] eqn:Hfind; simpl.
  - apply find_some in Hfind as [Hin Hp]. split; [|done].
    intros _. exists x. by rewrite list_elem_of_In.
  - split; [done|]. intros (x & Hin & Hp).
    apply list_elem_of_In in Hin.
    by rewrite (find_none _ _ Hfind _ Hin) in Hp.
Qed.

(** C1: the store key of [saveWaypoint] is chosen the other way round from
    what the flag's name says: with [isDraft] true the merge (the waypoint at
    key [waypoint${index}], [errorFields.route] null,
    [routes.route0.geometry.coordinates] null) goes to the committed
    transaction key, with [isDraft] false to the draft key; the only call that
    can follow is the write of the recent waypoints.  [updateWaypoints]
    chooses the opposite key for the same flag. *)
Theorem saveWaypoint_store_key_inverted mirror transactionID index waypoint :
  let changes :=
    VObj [("comment",
           VObj [("waypoints", VObj [("waypoint" +:+ index, entry waypoint)])]);
          ("errorFields", VObj [("route", VNull)]);
          ("routes",
           VObj [("route0", VObj [("geometry", VObj [("coordinates", VNull)])])])] in
  (∃ rest,
     calls (saveWaypoint mirror transactionID index waypoint true)
     = Onyx_merge_call (ONYXKEYS_COLLECTION_TRANSACTION +:+ transactionID) changes
         :: rest
     ∧ Forall (λ c, ∃ v, c = Onyx_merge_call ONYXKEYS_NVP_RECENT_WAYPOINTS v) rest)
  ∧ (∃ rest,
       calls (saveWaypoint mirror transactionID index waypoint false)
       = Onyx_merge_call (ONYXKEYS_COLLECTION_TRANSACTION_DRAFT +:+ transactionID)
           changes :: rest
       ∧ Forall (λ c, ∃ v, c = Onyx_merge_call ONYXKEYS_NVP_RECENT_WAYPOINTS v) rest)
  ∧ (∀ isDraft waypoints,
       ∃ c1 c2 rest,
         calls (saveWaypoint mirror transactionID index waypoint isDraft)
         = Onyx_merge_call
             ((if isDraft then ONYXKEYS_COLLECTION_TRANSACTION
               else ONYXKEYS_COLLECTION_TRANSACTION_DRAFT) +:+ transactionID) c1
             :: rest
         ∧ calls (updateWaypoints transactionID waypoints isDraft)
           = [Onyx_merge_call
                ((if isDraft then ONYXKEYS_COLLECTION_TRANSACTION_DRAFT
                  else ONYXKEYS_COLLECTION_TRANSACTION) +:+ transactionID) c2]).
Proof.
  intros changes. repeat split.
  - eexists. rewrite saveWaypoint_calls. split; [done|].
    destruct (saves_recent _ _); repeat constructor. by eexists.
  - eexists. rewrite saveWaypoint_calls. split; [done|].
    destruct (saves_recent _ _); repeat constructor. by eexists.
  - intros isDraft waypoints. do 3 eexists.
    rewrite saveWaypoint_calls. by split.
Qed.

(** C5: when the waypoint has both [lat] and [lng], its address is not the
    current-location text and no recent waypoint has that address,
    [saveWaypoint] persists the waypoint put before the mirrored list, cut to
    at most 5 entries; when a recent waypoint has the address, or [lat] or
    [lng] is missing, or the address is the current-location text, the recent
    waypoints are not written, and the stored list stays what it was. *)
Theorem saveWaypoint_recent_waypoints mirror transactionID index waypoint isDraft :
  let w := entry waypoint in
  let recent := VObj <$> recentWaypoints mirror in
  let address_known :=
    ∃ recentWaypoint, recentWaypoint ∈ recentWaypoints mirror
      ∧ strict_equals (get (VObj recentWaypoint) "address") (get w "address") = true in
  let after_transaction_merge :=
    drop 1 (calls (saveWaypoint mirror transactionID index waypoint isDraft)) in
  (lodashHas w "lat" = true → lodashHas w "lng" = true →
   get w "address" ≠ VStr CONST_YOUR_LOCATION_TEXT → ¬ address_known →
   after_transaction_merge
   = [Onyx_merge_call ONYXKEYS_NVP_RECENT_WAYPOINTS (VArr (take 5 (w :: recent)))]
   ∧ (length (take 5 (w :: recent)) ≤ 5)%nat
   ∧ ∀ store,
       stored (run store (calls (saveWaypoint mirror transactionID index waypoint isDraft)))
         ONYXKEYS_NVP_RECENT_WAYPOINTS
       = VArr (take 5 (w :: recent)))
  ∧ (address_known ∨ lodashHas w "lat" = false ∨ lodashHas w "lng" = false
     ∨ get w "address" = VStr CONST_YOUR_LOCATION_TEXT →
     after_transaction_merge = []
     ∧ ∀ store,
         (if isDraft then ONYXKEYS_COLLECTION_TRANSACTION
          else ONYXKEYS_COLLECTION_TRANSACTION_DRAFT) +:+ transactionID
         ≠ ONYXKEYS_NVP_RECENT_WAYPOINTS →
         stored (run store (calls (saveWaypoint mirror transactionID index waypoint isDraft)))
           ONYXKEYS_NVP_RECENT_WAYPOINTS
         = stored store ONYXKEYS_NVP_RECENT_WAYPOINTS).
Proof.
  intros w recent address_known after_transaction_merge.
  subst w recent address_known after_transaction_merge.
  rewrite saveWaypoint_calls. cbn [drop].
  split.
  - intros Hlat Hlng Haddress Hunknown.
    assert (Hsaves : saves_recent mirror waypoint = true).
    { unfold saves_recent. rewrite Hlat, Hlng. cbn [andb].
      repeat (apply andb_true_iff; split).
      - apply negb_true_iff. unfold isEqual_string.
        destruct (get (entry waypoint) "address"); try done.
        apply bool_decide_eq_false_2. congruence.
      - apply negb_true_iff, not_true_is_false.
        rewrite truthy_find. exact Hunknown.
      - by destruct waypoint. }
    rewrite Hsaves. split; [done|]. split; [rewrite length_take; lia|].
    intros store. unfold run. cbn [foldl]. by rewrite stored_merge_eq.
  - intros Hskip.
    assert (Hsaves : saves_recent mirror waypoint = false).
    { unfold saves_recent.
      destruct Hskip as [Hknown|[Hlat|[Hlng|Haddress]]].
      - apply truthy_find in Hknown. rewrite Hknown.
        cbn [negb]. by rewrite andb_false_r.
      - by rewrite Hlat.
      - rewrite Hlng. by rewrite andb_false_r.
      - rewrite Haddress. cbn [isEqual_string].
        rewrite bool_decide_eq_true_2 by done. cbn [negb].
        by rewrite andb_false_r. }
    rewrite Hsaves. split; [done|].
    intros store Hkey. unfold run. cbn [foldl]. by rewrite stored_merge_ne.
Qed.

End SaveWaypoint.

Section AddStop.
Context `{!Imports}.

(** C6: [addStop] merges exactly one empty waypoint, at key [waypointN]
    where [N] is the number of waypoint keys the mirror holds for the
    transaction (0 when the mirror has no such transaction); once merged,
    every other entry of the stored mapping, [waypoint0] to [waypoint(N-1)]
    among them, is what it was, and [waypointN] is the empty waypoint if it
    was not there. *)
Theorem addStop_appends_at_count mirror transactionID :
  let transaction := default (VObj []) (VObj <$> allTransactions mirror !! transactionID) in
  let N := length (Object_keys (waypoints_of transaction ?? VObj [])) in
  let k := ONYXKEYS_COLLECTION_TRANSACTION +:+ transactionID in
  calls (addStop mirror transactionID)
  = [Onyx_merge_call k
       (VObj [("comment", VObj [("waypoints", VObj [(waypoint_key N, VObj [])])])])]
  ∧ (allTransactions mirror !! transactionID = None → N = 0%nat)
  ∧ ∀ store,
      let before := waypoints_of (stored store k) in
      let after := waypoints_of (stored (run store (calls (addStop mirror transactionID))) k) in
      (∀ f, f ≠ waypoint_key N → get after f = get before f)
      ∧ (∀ j : nat, (j < N)%nat → get after (waypoint_key j) = get before (waypoint_key j))
      ∧ (get before (waypoint_key N) = VUndefined → get after (waypoint_key N) = VObj []).
Proof.
  intros transaction N k.
  assert (Hcalls : calls (addStop mirror transactionID)
            = [Onyx_merge_call k
                 (VObj [("comment",
                         VObj [("waypoints", VObj [(waypoint_key N, VObj [])])])])])
    by done.
  split; [done|]. split.
  - intros Hnone. subst N transaction. by rewrite Hnone.
  - intros store before after.
    assert (Hafter : ∀ f, get after f
              = if decide (waypoint_key N = f)
                then deep_merge (get before (waypoint_key N)) (VObj [])
                else get before f).
    { intros f. subst after before. rewrite Hcalls. unfold run. cbn [foldl].
      rewrite stored_merge_eq. unfold waypoints_of.
      rewrite get_deep_merge_singleton, decide_True by done.
      rewrite get_deep_merge_singleton, decide_True by done.
      by rewrite get_deep_merge_singleton. }
    split; [|split].
    + intros f Hf. by rewrite Hafter, decide_False.
    + intros j Hj. rewrite Hafter, decide_False; [done|].
      intros Heq. apply waypoint_key_inj in Heq. lia.
    + intros Habsent. by rewrite Hafter, decide_True, Habsent.
Qed.

End AddStop.

Section RouteRequest.
Context `{!Imports, !JSON}.

(** C8: [getRoute] and [getRouteForDraft] send a request whose optimistic
    patch merges [comment.isLoading = true] and [errorFields.route = null]
    onto the transaction (the committed key for [getRoute], the draft key for
    [getRouteForDraft]); the success patch and the failure patch are the same
    and merge only [comment.isLoading = false], with no [routes] and no
    [errorFields] in them. *)
Theorem route_request_patches transactionID waypoints :
  let parameters :=
    [("transactionID", VStr transactionID);
     ("waypoints", VStr (JSON_stringify (VObj waypoints)))] in
  let loading (k : string) : OnyxUpdate :=
    {| onyxMethod := METHOD_MERGE; key := k;
       value := VObj [("comment", VObj [("isLoading", VBool true)]);
                      ("errorFields", VObj [("route", VNull)])] |} in
  let loaded (k : string) : OnyxUpdate :=
    {| onyxMethod := METHOD_MERGE; key := k;
       value := VObj [("comment", VObj [("isLoading", VBool false)])] |} in
  let request (k : string) : OnyxData :=
    {| optimisticData := [loading k]; successData := [loaded k];
       failureData := [loaded k] |} in
  calls (getRoute transactionID waypoints)
  = [API_read_call "GetRoute" parameters
       (request (ONYXKEYS_COLLECTION_TRANSACTION +:+ transactionID))]
  ∧ calls (getRouteForDraft transactionID waypoints)
    = [API_read_call "GetRouteForDraft" parameters
         (request (ONYXKEYS_COLLECTION_TRANSACTION_DRAFT +:+ transactionID))]
  ∧ (∀ isDraft,
       successData (getOnyxDataForRouteRequest transactionID isDraft)
       = failureData (getOnyxDataForRouteRequest transactionID isDraft))
  ∧ (∀ isDraft,
       Forall (λ u,
                 Object_keys (value u) = ["comment"]
                 ∧ get (value u) "comment" = VObj [("isLoading", VBool false)]
                 ∧ lodashHas (value u) "routes" = false
                 ∧ lodashHas (value u) "errorFields" = false)
         (successData (getOnyxDataForRouteRequest transactionID isDraft)
            ++ failureData (getOnyxDataForRouteRequest transactionID isDraft))).
Proof.
  intros parameters loading loaded request.
  split; [done|]. split; [done|]. split; [done|].
  intros isDraft. by repeat constructor.
Qed.

End RouteRequest.

(** ** [updateWaypoints] merges, it does not replace *)

Section UpdateWaypoints.
Context `{!Imports}.

(** What the write of [updateWaypoints] is, what it returns, and what the
    merge leaves behind: the route and its error are null afterwards, and a
    waypoint stored under a key that the new mapping lacks is still there. *)
Lemma updateWaypoints_merges transactionID (waypoints : Obj) (isDraft : bool) :
  let k := (if isDraft then ONYXKEYS_COLLECTION_TRANSACTION_DRAFT
            else ONYXKEYS_COLLECTION_TRANSACTION) +:+ transactionID in
  let changes :=
    VObj [("comment", VObj [("waypoints", VObj waypoints)]);
          ("errorFields", VObj [("route", VNull)]);
          ("routes",
           VObj [("route0",
                  VObj [("distance", VNull);
                        ("geometry", VObj [("coordinates", VNull)])])])] in
  calls (updateWaypoints transactionID waypoints isDraft) = [Onyx_merge_call k changes]
  ∧ result (updateWaypoints transactionID waypoints isDraft)
    = WriteDone (Onyx_merge_call k changes)
  ∧ ∀ store,
      let before := stored store k in
      let after := stored (run store (calls (updateWaypoints transactionID waypoints isDraft))) k in
      get (get after "errorFields") "route" = VNull
      ∧ get (get (get after "routes") "route0") "distance" = VNull
      ∧ get (get (get (get after "routes") "route0") "geometry") "coordinates" = VNull
      ∧ ∀ old f, waypoints_of before = VObj old → f ∉ waypoints.*1 →
          get (waypoints_of after) f = obj_get f old.
Proof.
  intros k changes. split; [done|]. split; [done|].
  intros store before after. subst after. unfold run.
  cbn [calls updateWaypoints Onyx_merge snd foldl].
  fold k. rewrite stored_merge_eq. fold before. unfold waypoints_of.
  assert (Hkeys : NoDup (["comment"; "errorFields"; "routes"] : list string))
    by compute_done.
  rewrite !(get_deep_merge before) by exact Hkeys.
  rewrite !decide_True by compute_done. cbn [obj_get].
  repeat first [rewrite decide_True by done | rewrite decide_False by done].
  repeat (rewrite get_deep_merge by compute_done;
          rewrite ?decide_True by compute_done; cbn [obj_get];
          repeat first [rewrite decide_True by done | rewrite decide_False by done]).
  repeat split; try done.
  intros old f Hold Hf. rewrite Hold. by apply get_deep_merge_other.
Qed.

End UpdateWaypoints.

(** ** The actions on concrete transactions *)

(** C2: [updateWaypoints] does not replace the stored mapping wholesale.  On
    a transaction holding [waypoint0], [waypoint1], [waypoint2], updating to
    a mapping with [waypoint0] and [waypoint1] only leaves the old
    [waypoint2] in the store: the call is a merge, and the stored mapping is
    not the one given. *)
Theorem updateWaypoints_keeps_stale_waypoint :
  let waypoints := [("waypoint0", VObj stop_A); ("waypoint1", VObj stop_C)] in
  let after :=
    stored (run (sample_store three_stops)
              (calls (updateWaypoints (H := sample_imports) "t1" waypoints false)))
      "transactions_t1" in
  waypoints_of after
  = VObj [("waypoint0", VObj stop_A); ("waypoint1", VObj stop_C);
          ("waypoint2", VObj stop_C)]
  ∧ waypoints_of after ≠ VObj waypoints
  ∧ get (waypoints_of (stored (sample_store three_stops) "transactions_t1")) "waypoint2"
    = get (waypoints_of after) "waypoint2".
Proof. split; [by vm_compute|]. split; [by vm_compute|]. by vm_compute. Qed.

Lemma removeWaypoint_returns_early_witness :
  calls (removeWaypoint (H := sample_imports) (Some (sample_transaction two_stops)) "7" true)
  = [].
Proof.
  apply (removeWaypoint_returns_early_without_write (H := sample_imports)
           (Some (sample_transaction two_stops)) "7" true).
  reflexivity.
Defined.

Lemma removeWaypoint_NaN_index_witness :
  ∃ newTransaction,
    written_transaction
      (removeWaypoint (H := sample_imports) (Some (sample_transaction two_stops)) "abc" false)
    = Some newTransaction
    ∧ waypoints_of newTransaction = VObj [("waypoint0", VObj stop_B)].
Proof.
  apply (removeWaypoint_NaN_index_removes_first (H := sample_imports)
           (Some (sample_transaction two_stops)) "abc" false
           (VObj stop_A) [VObj stop_B]);
    reflexivity.
Defined.

Lemma removeWaypoint_two_stops_witness :
  ∃ newTransaction,
    written_transaction
      (removeWaypoint (H := sample_imports) (Some (sample_transaction two_stops)) "0" false)
    = Some newTransaction
    ∧ waypoints_of newTransaction
      = VObj [("waypoint0", VObj []); ("waypoint1", VObj stop_B)].
Proof.
  apply (removeWaypoint_two_stops_keeps_two_slots (H := sample_imports)
           (Some (sample_transaction two_stops)) "0" false 0
           "waypoint0" (VObj stop_A) "waypoint1" (VObj stop_B));
    [reflexivity | reflexivity | left; reflexivity].
Defined.

Lemma removeWaypoint_reindexes_witness :
  ∃ newTransaction,
    written_transaction
      (removeWaypoint (H := sample_imports) (Some (sample_transaction three_stops)) "1" false)
    = Some newTransaction
    ∧ waypoints_of newTransaction
      = VObj [("waypoint0", VObj stop_A); ("waypoint1", VObj stop_C)].
Proof.
  destruct (removeWaypoint_reindexes_contiguously (H := sample_imports)
              (Some (sample_transaction three_stops)) "1" false three_stops 1)
    as (newTransaction & written & Hwritten & Hwaypoints & _ & _ & Hmiddle);
    [reflexivity | reflexivity | simpl; lia |].
  exists newTransaction. split; [exact Hwritten|].
  rewrite Hwaypoints.
  by rewrite (Hmiddle (VObj stop_A) (VObj stop_B) (VObj stop_C)).
Defined.

Lemma removeWaypoint_clears_route_witness :
  (∃ newTransaction,
     written_transaction
       (removeWaypoint (H := sample_imports) (Some (sample_transaction three_stops)) "1" false)
     = Some newTransaction
     ∧ get newTransaction "errorFields" = VObj [("route", VNull)]
     ∧ get newTransaction "amount" = VNum (number_of_Z 500)
     ∧ get newTransaction "merchant" = VStr "")
  ∧ (∃ newTransaction,
       written_transaction
         (removeWaypoint (H := sample_imports)
            (Some (sample_transaction [("waypoint0", VObj stop_A); ("waypoint1", VObj []);
                                       ("waypoint2", VObj stop_C)])) "1" false)
       = Some newTransaction
       ∧ get newTransaction "errorFields" = VObj [("route", VStr "old error")]).
Proof.
  split.
  - destruct (removeWaypoint_clears_route_only_for_valid_address (H := sample_imports)
                (Some (sample_transaction three_stops)) "1" false (VObj stop_B))
      as (newTransaction & Hwritten & _ & Hvalid & Hdefaults & _); [reflexivity|].
    exists newTransaction. split; [exact Hwritten|].
    split; [apply Hvalid; reflexivity|].
    split; [apply (Hdefaults "amount" (VNum (number_of_Z 0)));
            by apply (list_elem_of_lookup_2 _ 0%nat)
           |apply (Hdefaults "merchant" (VStr ""));
            by apply (list_elem_of_lookup_2 _ 6%nat)].
  - destruct (removeWaypoint_clears_route_only_for_valid_address (H := sample_imports)
                (Some (sample_transaction [("waypoint0", VObj stop_A); ("waypoint1", VObj []);
                                           ("waypoint2", VObj stop_C)]))
                "1" false (VObj []))
      as (newTransaction & Hwritten & Hempty & _); [reflexivity|].
    exists newTransaction. split; [exact Hwritten|].
    apply Hempty. reflexivity.
Defined.

Lemma saveWaypoint_recent_waypoints_witness :
  drop 1 (calls (saveWaypoint (H := sample_imports) sample_mirror "t1" "1" (Some stop_B) false))
  = [Onyx_merge_call "expensify_recentWaypoints" (VArr [VObj stop_B; VObj stop_A])]
  ∧ drop 1 (calls (saveWaypoint (H := sample_imports) sample_mirror "t1" "1" (Some stop_A) false))
    = [].
Proof.
  split.
  - apply (proj1 (saveWaypoint_recent_waypoints (H := sample_imports)
                    sample_mirror "t1" "1" (Some stop_B) false));
      [reflexivity | reflexivity | discriminate |].
    intros (recentWaypoint & Hin & Hsame).
    apply list_elem_of_singleton in Hin. subst recentWaypoint. discriminate Hsame.
  - apply (proj2 (saveWaypoint_recent_waypoints (H := sample_imports)
                    sample_mirror "t1" "1" (Some stop_A) false)).
    left. exists stop_A. split; [apply list_elem_of_here | reflexivity].
Defined.

Lemma addStop_appends_witness :
  calls (addStop (H := sample_imports) sample_mirror "t1")
  = [Onyx_merge_call "transactions_t1"
       (VObj [("comment", VObj [("waypoints", VObj [("waypoint2", VObj [])])])])]
  ∧ get (waypoints_of
           (stored (run (sample_store two_stops)
                      (calls (addStop (H := sample_imports) sample_mirror "t1")))
              "transactions_t1")) "waypoint1"
    = VObj stop_B.
Proof.
  destruct (addStop_appends_at_count (H := sample_imports) sample_mirror "t1")
    as (Hcalls & _ & Hstore).
  split; [exact Hcalls|].
  destruct (Hstore (sample_store two_stops)) as (_ & Hprior & _).
  etransitivity; [apply (Hprior 1%nat); vm_compute; lia | reflexivity].
Defined.

(** ** More on [removeWaypoint] *)

Lemma length_Object_keys_values v : length (Object_keys v) = length (Object_values v).
Proof. unfold Object_keys, Object_values. by rewrite !length_fmap. Qed.

Lemma splice_removed_length (l : list jsvalue) index r :
  (splice l index 1 []).1 = [r] →
  (0 < length l)%nat ∧ length (splice l index 1 []).2 = (length l - 1)%nat.
Proof.
  unfold splice. cbn [fst snd]. intros Hone.
  set (s := relative_start (length l) index) in *.
  assert (Hs : (s < length l)%nat).
  { destruct (decide (s < length l)%nat); [done|].
    rewrite drop_ge, take_nil in Hone by lia. done. }
  replace (1 `min` (length l - s))%nat with 1%nat by lia.
  split; [lia|]. rewrite app_nil_l, length_app, length_take, length_drop. lia.
Qed.

Lemma relative_start_le len index : (relative_start len index ≤ len)%nat.
Proof.
  unfold relative_start. destruct (ToIntegerOrInfinity index); [lia|lia|].
  case_decide; lia.
Qed.

Lemma splice_insert_length (l : list jsvalue) index x :
  length (splice l index 0 [x]).2 = S (length l).
Proof.
  unfold splice. cbn [snd]. pose proof (relative_start_le (length l) index).
  rewrite Nat.min_0_l, Nat.add_0_r, length_app. cbn [app length].
  rewrite length_take, length_drop. lia.
Qed.

Lemma relative_start_negative (len j : nat) :
  (1 ≤ j ≤ len)%nat →
  relative_start len (number_of_Z (- Z.of_nat j)) = (len - j)%nat.
Proof.
  intros Hj. unfold relative_start. rewrite ToIntegerOrInfinity_of_Z.
  rewrite decide_True by lia. lia.
Qed.

Section RemoveWaypointMore.
Context `{!Imports}.

Lemma removeWaypoint_written_inv tx currentIndex isDraft newTransaction :
  written_transaction (removeWaypoint tx currentIndex isDraft) = Some newTransaction →
  ∃ r,
    (splice (Object_values (waypoints_of (entry tx) ?? VObj []))
       (Number currentIndex) 1 []).1 = [r]
    ∧ waypoints_of newTransaction
      = VObj (zip (waypoint_keys
                     (length (waypointValues_after (waypoints_of (entry tx) ?? VObj [])
                                (Number currentIndex))))
                (waypointValues_after (waypoints_of (entry tx) ?? VObj [])
                   (Number currentIndex))).
Proof.
  intros Hwritten.
  destruct (splice_one_removed (Object_values (waypoints_of (entry tx) ?? VObj []))
              (Number currentIndex)) as [Hnone|[r Hone]].
  - by rewrite (removeWaypoint_nothing_removed _ _ _ Hnone) in Hwritten.
  - exists r. split; [done|].
    destruct (removeWaypoint_written_waypoints tx currentIndex isDraft r Hone)
      as (newTransaction' & Hwritten' & Hwaypoints).
    rewrite Hwritten in Hwritten'. by simplify_eq.
Qed.

(** X2: Whatever the index (negative, fractional, not a number) and whatever the
    keys of the input mapping, a mapping that [removeWaypoint] writes has the
    keys [waypoint0] to [waypoint(k-1)] and nothing else. *)
Theorem removeWaypoint_always_writes_contiguous_keys
    tx currentIndex isDraft newTransaction :
  written_transaction (removeWaypoint tx currentIndex isDraft) = Some newTransaction →
  ∃ written,
    waypoints_of newTransaction = VObj written
    ∧ Object_keys (VObj written) = waypoint_keys (length written)
    ∧ NoDup (Object_keys (VObj written)).
Proof.
  intros Hwritten.
  destruct (removeWaypoint_written_inv _ _ _ _ Hwritten) as (r & _ & Hwaypoints).
  eexists. split; [exact Hwaypoints|].
  unfold Object_keys. cbn [own_props]. rewrite zip_waypoint_keys_fst.
  rewrite length_zip, length_waypoint_keys, Nat.min_id. split; [done|].
  unfold waypoint_keys. apply NoDup_fmap_2; [|apply NoDup_seq].
  intros i j. apply waypoint_key_inj.
Qed.

(** X3: The number of waypoints [removeWaypoint] writes: one less than before,
    except on a two-stop trip with index exactly 0 or 1, where it stays 2.
    So a two-stop trip drops to a single waypoint when the index is, say,
    [-1] or [0.5] or not a number. *)
Theorem removeWaypoint_written_count tx currentIndex isDraft newTransaction written :
  written_transaction (removeWaypoint tx currentIndex isDraft) = Some newTransaction →
  waypoints_of newTransaction = VObj written →
  let n := length (Object_keys (waypoints_of (entry tx) ?? VObj [])) in
  (0 < n)%nat
  ∧ length written
    = if bool_decide (n = 2)
         && (number_strict_equals (Number currentIndex) (number_of_Z 0)
             || number_strict_equals (Number currentIndex) (number_of_Z 1))
      then 2%nat else (n - 1)%nat.
Proof.
  intros Hwritten Hws n.
  destruct (removeWaypoint_written_inv _ _ _ _ Hwritten) as (r & Hone & Hwaypoints).
  rewrite Hws in Hwaypoints. injection Hwaypoints as ->.
  rewrite length_zip, length_waypoint_keys, Nat.min_id.
  destruct (splice_removed_length _ _ _ Hone) as [Hpos Hlen].
  subst n. rewrite length_Object_keys_values. split; [done|].
  unfold waypointValues_after. rewrite length_Object_keys_values.
  destruct (decide (length (Object_values (waypoints_of (entry tx) ?? VObj [])) = 2))
    as [Htwo|Hne].
  - rewrite (bool_decide_eq_true_2 _ Htwo), Htwo. cbn [andb].
    change (Z.of_nat 2 - 1)%Z with 1%Z.
    destruct (_ || _); [|lia].
    rewrite splice_insert_length. lia.
  - rewrite (bool_decide_eq_false_2 _ Hne). done.
Qed.

(** X4: A negative index counts from the end: [-j] removes the [j]-th waypoint
    from the end, and nothing is put back, not even on a two-stop trip. *)
Theorem removeWaypoint_negative_index_counts_from_end
    tx currentIndex isDraft (ws : Obj) (j : nat) :
  waypoints_of (entry tx) = VObj ws →
  Number currentIndex = number_of_Z (- Z.of_nat j) →
  (1 ≤ j ≤ length ws)%nat →
  ∃ newTransaction,
    written_transaction (removeWaypoint tx currentIndex isDraft) = Some newTransaction
    ∧ Object_values (waypoints_of newTransaction)
      = take (length ws - j) ws.*2 ++ drop (S (length ws - j)) ws.*2.
Proof.
  intros Hws Hindex Hj.
  assert (Hlen : length ws.*2 = length ws) by apply length_fmap.
  destruct (lookup_lt_is_Some_2 ws.*2 (length ws - j)) as [x Hx]; [lia|].
  assert (Hsplice : splice ws.*2 (number_of_Z (- Z.of_nat j)) 1 []
            = ([x], take (length ws - j) ws.*2 ++ drop (S (length ws - j)) ws.*2)).
  { unfold splice. rewrite Hlen, relative_start_negative by done.
    replace (1 `min` (length ws - (length ws - j)))%nat with 1%nat by lia.
    rewrite (drop_S _ _ _ Hx). cbn [take app]. by rewrite take_0, Nat.add_1_r. }
  assert (Hone : (splice (Object_values (waypoints_of (entry tx) ?? VObj []))
                    (Number currentIndex) 1 []).1 = [x]).
  { rewrite Hws, Hindex. change (Object_values _) with ws.*2. by rewrite Hsplice. }
  destruct (removeWaypoint_written_waypoints tx currentIndex isDraft x Hone)
    as (newTransaction & Hwritten & Hwaypoints).
  exists newTransaction. split; [done|].
  rewrite Hwaypoints. unfold Object_values. cbn [own_props].
  rewrite zip_waypoint_keys_snd. rewrite Hws, Hindex.
  change (VObj ws ?? VObj []) with (VObj ws).
  unfold waypointValues_after, Object_keys, Object_values. cbn [own_props].
  rewrite !number_strict_equals_of_Z, length_fmap.
  rewrite (bool_decide_eq_false_2 (- Z.of_nat j = 0)%Z) by lia.
  rewrite (bool_decide_eq_false_2 (- Z.of_nat j = Z.of_nat (length ws) - 1)%Z) by lia.
  rewrite andb_false_r. by rewrite Hsplice.
Qed.

(** X5: Without waypoints there is nothing to remove: on a null transaction, or
    one whose [comment.waypoints] is null or missing, [removeWaypoint] makes
    no call, whatever the index. *)
Theorem removeWaypoint_without_waypoints_does_nothing tx currentIndex isDraft :
  nullish (waypoints_of (entry tx)) = true →
  calls (removeWaypoint tx currentIndex isDraft) = [].
Proof.
  intros Hnull.
  rewrite removeWaypoint_nothing_removed; [done|].
  unfold nullish_or. rewrite Hnull. unfold splice. cbn [fst Object_values own_props fmap list_fmap length].
  by rewrite drop_nil, take_nil.
Qed.

(** X6: An index at or past the number of waypoints, or [Infinity], removes
    nothing: [removeWaypoint] makes no call. *)
Theorem removeWaypoint_index_past_the_end_does_nothing
    tx currentIndex isDraft (i : nat) :
  (Number currentIndex = number_of_nat i
   ∧ (length (Object_values (waypoints_of (entry tx) ?? VObj [])) ≤ i)%nat)
  ∨ Number currentIndex = Infinity false →
  calls (removeWaypoint tx currentIndex isDraft) = [].
Proof.
  intros Hpast. rewrite removeWaypoint_nothing_removed; [done|].
  destruct Hpast as [[-> Hle]| ->].
  - by apply splice_nothing_past_the_end.
  - unfold splice. cbn [fst]. unfold relative_start. cbn [ToIntegerOrInfinity].
    by rewrite drop_all, take_nil.
Qed.

(** X7: [removeWaypoint] replaces the stored transaction: after its [Onyx.set],
    the draft record (with [isDraft]) or the committed record (without) is
    exactly the transaction it built, whatever the store held there, and no
    other record changes.  The key is read from the input's [transactionID]:
    when that is missing the record is stored under the prefix followed by
    [undefined], while its own [transactionID] field is the empty string. *)
Theorem removeWaypoint_replaces_the_stored_record
    tx currentIndex isDraft newTransaction :
  written_transaction (removeWaypoint tx currentIndex isDraft) = Some newTransaction →
  let k := (if isDraft then ONYXKEYS_COLLECTION_TRANSACTION_DRAFT
            else ONYXKEYS_COLLECTION_TRANSACTION)
           +:+ ToString (get (entry tx) "transactionID") in
  (∀ store,
     stored (run store (calls (removeWaypoint tx currentIndex isDraft))) k
     = newTransaction
     ∧ ∀ k', k' ≠ k →
         run store (calls (removeWaypoint tx currentIndex isDraft)) !! k' = store !! k')
  ∧ (get (entry tx) "transactionID" = VUndefined →
     k = (if isDraft then ONYXKEYS_COLLECTION_TRANSACTION_DRAFT
          else ONYXKEYS_COLLECTION_TRANSACTION) +:+ "undefined"
     ∧ get newTransaction "transactionID" = VStr "").
Proof.
  intros Hwritten k.
  destruct (removeWaypoint_written_inv _ _ _ _ Hwritten) as (r & Hone & _).
  destruct (removeWaypoint_written tx currentIndex isDraft r Hone)
    as (newTransaction' & Hcalls & _ & _ & _ & Hdefaults & _).
  unfold written_transaction in Hwritten. rewrite Hcalls in Hwritten.
  injection Hwritten as <-. rewrite Hcalls. fold k. split.
  - intros store. unfold run, stored, apply_call, apply_update.
    cbn [foldl onyxMethod key value].
    split; [by rewrite lookup_insert_eq|].
    intros k' Hk'. by rewrite lookup_insert_ne.
  - intros Hmissing. subst k. rewrite Hmissing. split; [done|].
    cbn [get]. rewrite (Hdefaults "transactionID" (VStr "")).
    + by rewrite Hmissing.
    + by apply (list_elem_of_lookup_2 _ 8%nat).
Qed.

End RemoveWaypointMore.

(** ** More on [saveWaypoint] *)

Lemma number_strict_equals_sym a b : number_strict_equals a b = number_strict_equals b a.
Proof.
  destruct a, b; try done; unfold number_strict_equals;
    apply bool_decide_ext; split; congruence.
Qed.

Lemma strict_equals_sym a b : strict_equals a b = strict_equals b a.
Proof.
  destruct a, b; try done; cbn [strict_equals];
    first [apply number_strict_equals_sym | apply bool_decide_ext; split; congruence].
Qed.

Lemma truthy_find_false (l : list Obj) p :
  truthy (find l p) = false → ∀ x, x ∈ l → p x = false.
Proof.
  intros Hfalse x Hin. apply not_true_is_false. intros Hp.
  assert (Htrue : truthy (find l p) = true) by (apply truthy_find; eauto).
  congruence.
Qed.

Lemma distinct_addresses_take n l : distinct_addresses l → distinct_addresses (take n l).
Proof.
  intros Hl i j x y Hi Hj Hne.
  apply lookup_take_Some in Hi as [Hi _]. apply lookup_take_Some in Hj as [Hj _].
  by apply (Hl i j).
Qed.

Section SaveWaypointMore.
Context `{!Imports}.

Lemma saveWaypoint_recent_write mirror transactionID index waypoint isDraft l :
  Onyx_merge_call ONYXKEYS_NVP_RECENT_WAYPOINTS (VArr l)
    ∈ calls (saveWaypoint mirror transactionID index waypoint isDraft) →
  saves_recent mirror waypoint = true
  ∧ l = take 5 (entry waypoint :: (VObj <$> recentWaypoints mirror)).
Proof.
  rewrite saveWaypoint_calls. intros Hin.
  apply elem_of_cons in Hin as [Heq|Hin]; [done|].
  destruct (saves_recent mirror waypoint); [|by apply elem_of_nil in Hin].
  apply list_elem_of_singleton in Hin. by simplify_eq.
Qed.

(** X8: The recent waypoints stay deduplicated by address and capped: if no two
    mirrored entries have strictly equal addresses, then any list
    [saveWaypoint] persists has at most 5 entries, starts with the saved
    waypoint and again has no two entries with strictly equal addresses. *)
Theorem saveWaypoint_keeps_recent_addresses_distinct
    mirror transactionID index waypoint isDraft l :
  distinct_addresses (VObj <$> recentWaypoints mirror) →
  Onyx_merge_call ONYXKEYS_NVP_RECENT_WAYPOINTS (VArr l)
    ∈ calls (saveWaypoint mirror transactionID index waypoint isDraft) →
  distinct_addresses l
  ∧ (length l ≤ 5)%nat
  ∧ l !! 0%nat = Some (entry waypoint).
Proof.
  intros Hdistinct Hin.
  apply saveWaypoint_recent_write in Hin as [Hsaves ->].
  split; [|split; [rewrite length_take; lia|done]].
  apply distinct_addresses_take.
  unfold saves_recent in Hsaves.
  repeat (apply andb_true_iff in Hsaves as [Hsaves ?]).
  assert (Hfresh : ∀ rw, rw ∈ recentWaypoints mirror →
            strict_equals (get (VObj rw) "address") (get (entry waypoint) "address")
            = false).
  { apply truthy_find_false. by apply negb_true_iff. }
  assert (Hfresh' : ∀ y (j : nat), (VObj <$> recentWaypoints mirror) !! j = Some y →
            strict_equals (get y "address") (get (entry waypoint) "address") = false).
  { intros y j Hj. apply list_lookup_fmap_Some in Hj as (rw & -> & Hrw).
    apply Hfresh. by eapply list_elem_of_lookup_2. }
  intros [|i] [|j] x y Hi Hj Hne; [done| | |].
  - cbn in Hi. injection Hi as <-. cbn in Hj.
    rewrite strict_equals_sym. by eapply Hfresh'.
  - cbn in Hj. injection Hj as <-. cbn in Hi. by eapply Hfresh'.
  - cbn in Hi, Hj. apply (Hdistinct i j); [done|done|lia].
Qed.

(** X9: Saving the same place twice persists the recent waypoints once: after a
    call that wrote them, and once the subscription has delivered the
    written list to the mirror, another [saveWaypoint] of that waypoint (for
    any transaction and index) writes only the transaction. *)
Theorem saveWaypoint_again_leaves_recent_alone
    mirror transactionID index isDraft transactionID' index' isDraft'
    (w : Obj) (address : string) (persisted : list Obj) :
  get (VObj w) "address" = VStr address →
  Onyx_merge_call ONYXKEYS_NVP_RECENT_WAYPOINTS (VArr (VObj <$> persisted))
    ∈ calls (saveWaypoint mirror transactionID index (Some w) isDraft) →
  length (calls (saveWaypoint (recentWaypoints_callback (Some persisted) mirror)
                   transactionID' index' (Some w) isDraft')) = 1%nat.
Proof.
  intros Haddress Hin.
  apply saveWaypoint_recent_write in Hin as [_ Hpersisted].
  assert (Hhead : w ∈ persisted).
  { cbn [entry] in Hpersisted.
    change (VObj w :: (VObj <$> recentWaypoints mirror))
      with (VObj <$> w :: recentWaypoints mirror) in Hpersisted.
    rewrite <- fmap_take in Hpersisted.
    assert (Hinj : Inj (=) (=) VObj) by (intros o1 o2 Heq; by injection Heq).
    apply (inj (fmap VObj)) in Hpersisted. subst persisted.
    cbn [take]. apply list_elem_of_here. }
  rewrite saveWaypoint_calls.
  assert (Hsaves : saves_recent (recentWaypoints_callback (Some persisted) mirror) (Some w)
            = false).
  { unfold saves_recent.
    assert (Htruthy : truthy (find (recentWaypoints
                                (recentWaypoints_callback (Some persisted) mirror))
                       (λ recentWaypoint,
                          strict_equals (get (VObj recentWaypoint) "address")
                            (get (entry (Some w)) "address"))) = true).
    { apply truthy_find. exists w. split; [done|].
      cbn [entry]. rewrite Haddress. cbn [strict_equals].
      by apply bool_decide_eq_true_2. }
    rewrite Htruthy. cbn [negb]. by rewrite andb_false_r. }
  by rewrite Hsaves.
Qed.

Lemma saveWaypoint_stored mirror transactionID index waypoint (isDraft : bool) store :
  let k := (if isDraft then ONYXKEYS_COLLECTION_TRANSACTION
            else ONYXKEYS_COLLECTION_TRANSACTION_DRAFT) +:+ transactionID in
  k ≠ ONYXKEYS_NVP_RECENT_WAYPOINTS →
  stored (run store (calls (saveWaypoint mirror transactionID index waypoint isDraft))) k
  = deep_merge (stored store k)
      (VObj [("comment",
              VObj [("waypoints", VObj [("waypoint" +:+ index, entry waypoint)])]);
             ("errorFields", VObj [("route", VNull)]);
             ("routes",
              VObj [("route0", VObj [("geometry", VObj [("coordinates", VNull)])])])]).
Proof.
  intros k Hk. rewrite saveWaypoint_calls. fold k. unfold run. cbn [foldl].
  destruct (saves_recent mirror waypoint); cbn [foldl].
  - rewrite stored_merge_ne by done. apply stored_merge_eq.
  - apply stored_merge_eq.
Qed.

Lemma saveWaypoint_stored_slot mirror transactionID index waypoint (isDraft : bool) store f :
  let k := (if isDraft then ONYXKEYS_COLLECTION_TRANSACTION
            else ONYXKEYS_COLLECTION_TRANSACTION_DRAFT) +:+ transactionID in
  k ≠ ONYXKEYS_NVP_RECENT_WAYPOINTS →
  get (waypoints_of
         (stored (run store (calls (saveWaypoint mirror transactionID index waypoint isDraft)))
            k)) f
  = if decide ("waypoint" +:+ index = f)
    then deep_merge (get (waypoints_of (stored store k)) ("waypoint" +:+ index))
           (entry waypoint)
    else get (waypoints_of (stored store k)) f.
Proof.
  intros k Hk. rewrite saveWaypoint_stored by done. fold k. unfold waypoints_of.
  rewrite (get_deep_merge (stored store k)) by compute_done.
  rewrite decide_True by compute_done. cbn [obj_get].
  rewrite decide_True by done.
  rewrite get_deep_merge_singleton, decide_True by done.
  by rewrite get_deep_merge_singleton.
Qed.


(** X11: A field the saved waypoint does not have survives in the stored slot:
    saving an address without [lat] and [lng] over a geocoded stop leaves the
    old coordinates beside the new address. *)
Theorem saveWaypoint_keeps_fields_the_waypoint_lacks
    mirror transactionID index (w old : Obj) (isDraft : bool) store f :
  let k := (if isDraft then ONYXKEYS_COLLECTION_TRANSACTION
            else ONYXKEYS_COLLECTION_TRANSACTION_DRAFT) +:+ transactionID in
  let slot v := get (waypoints_of v) ("waypoint" +:+ index) in
  k ≠ ONYXKEYS_NVP_RECENT_WAYPOINTS →
  slot (stored store k) = VObj old →
  f ∉ w.*1 →
  get (slot (stored (run store
                       (calls (saveWaypoint mirror transactionID index (Some w) isDraft))) k)) f
  = obj_get f old.
Proof.
  intros k slot Hk Hold Hf. subst slot k. cbn beta in *.
  rewrite saveWaypoint_stored_slot, decide_True by done. rewrite Hold.
  by apply get_deep_merge_other.
Qed.

End SaveWaypointMore.

(** ** More on [addStop], [createInitialWaypoints] and the mirror *)

Lemma obj_get_present f (o : Obj) : obj_get f o ≠ VUndefined → f ∈ o.*1.
Proof.
  intros Hget. destruct (decide (f ∈ o.*1)) as [|Hnotin]; [done|].
  by rewrite obj_get_absent in Hget.
Qed.

Lemma obj_set_same k (o : Obj) : k ∈ o.*1 → obj_set k (obj_get k o) o = o.
Proof.
  induction o as [|[k' v'] o IH]; cbn [fmap list_fmap fst obj_get obj_set].
  - intros Hin. by apply elem_of_nil in Hin.
  - intros Hin. destruct (decide (k' = k)) as [->|Hne]; [done|].
    apply elem_of_cons in Hin as [->|Hin]; [done|]. by rewrite IH.
Qed.

Lemma deep_merge_singleton_object (o : Obj) k v :
  deep_merge (VObj o) (VObj [(k, v)]) = VObj (obj_set k (deep_merge (obj_get k o) v) o).
Proof. done. Qed.

Lemma waypoint_keys_S (n : nat) : waypoint_keys (S n) = waypoint_keys n ++ [waypoint_key n].
Proof. unfold waypoint_keys. by rewrite seq_S, fmap_app. Qed.

Lemma waypoint_key_fresh (n : nat) : waypoint_key n ∉ waypoint_keys n.
Proof.
  unfold waypoint_keys. intros Hin.
  apply list_elem_of_fmap in Hin as (j & Heq & Hj).
  apply waypoint_key_inj in Heq. subst j. apply elem_of_seq in Hj. lia.
Qed.

Section AddStopMore.
Context `{!Imports}.

Lemma addStop_calls mirror transactionID :
  calls (addStop mirror transactionID)
  = [Onyx_merge_call (ONYXKEYS_COLLECTION_TRANSACTION +:+ transactionID)
       (VObj [("comment",
               VObj [("waypoints",
                      VObj [(waypoint_key
                               (length (Object_keys
                                  (waypoints_of
                                     (default (VObj [])
                                        (VObj <$> allTransactions mirror !! transactionID))
                                   ?? VObj []))),
                             VObj [])])])])].
Proof. done. Qed.

Lemma addStop_stored_waypoints mirror transactionID store :
  waypoints_of
    (stored (run store (calls (addStop mirror transactionID)))
       (ONYXKEYS_COLLECTION_TRANSACTION +:+ transactionID))
  = deep_merge
      (waypoints_of (stored store (ONYXKEYS_COLLECTION_TRANSACTION +:+ transactionID)))
      (VObj [(waypoint_key
                (length (Object_keys
                   (waypoints_of
                      (default (VObj [])
                         (VObj <$> allTransactions mirror !! transactionID))
                    ?? VObj []))),
              VObj [])]).
Proof.
  rewrite addStop_calls. unfold run. cbn [foldl]. rewrite stored_merge_eq.
  unfold waypoints_of.
  rewrite get_deep_merge_singleton, decide_True by done.
  by rewrite get_deep_merge_singleton, decide_True by done.
Qed.

(** X12: [addStop] keeps the waypoint keys contiguous: when the mirror holds the
    stored transaction and its waypoint keys are [waypoint0] to
    [waypoint(N-1)], the stored mapping afterwards is the old one followed by
    an empty waypoint at [waypointN], so its keys are [waypoint0] to
    [waypointN]. *)
Theorem addStop_keeps_keys_contiguous mirror transactionID store (t ws : Obj) :
  allTransactions mirror !! transactionID = Some t →
  stored store (ONYXKEYS_COLLECTION_TRANSACTION +:+ transactionID) = VObj t →
  waypoints_of (VObj t) = VObj ws →
  Object_keys (VObj ws) = waypoint_keys (length ws) →
  let after :=
    waypoints_of
      (stored (run store (calls (addStop mirror transactionID)))
         (ONYXKEYS_COLLECTION_TRANSACTION +:+ transactionID)) in
  after = VObj (ws ++ [(waypoint_key (length ws), VObj [])])
  ∧ Object_keys after = waypoint_keys (S (length ws)).
Proof.
  intros Hmirror Hstored Hws Hkeys after. subst after.
  rewrite addStop_stored_waypoints, Hmirror, Hstored.
  change (default (VObj []) (VObj <$> Some t)) with (VObj t).
  rewrite Hws. change (VObj ws ?? VObj []) with (VObj ws).
  unfold Object_keys in *. cbn [own_props] in *. rewrite length_fmap.
  assert (Hfresh : waypoint_key (length ws) ∉ ws.*1)
    by (rewrite Hkeys; apply waypoint_key_fresh).
  rewrite deep_merge_singleton_object, (obj_get_absent _ _ Hfresh).
  cbn [deep_merge]. rewrite obj_set_fresh by done. split; [done|].
  cbn [own_props]. by rewrite fmap_app, Hkeys, waypoint_keys_S.
Qed.

(** X13: When the keys are not contiguous and the stored mapping already has a
    waypoint object under [waypointN] ([N] the mirror's key count),
    [addStop] adds nothing: the stored mapping is what it was. *)
Theorem addStop_on_a_taken_key_adds_nothing mirror transactionID store (ws o : Obj) :
  let N :=
    length (Object_keys
              (waypoints_of
                 (default (VObj []) (VObj <$> allTransactions mirror !! transactionID))
               ?? VObj [])) in
  waypoints_of (stored store (ONYXKEYS_COLLECTION_TRANSACTION +:+ transactionID))
  = VObj ws →
  obj_get (waypoint_key N) ws = VObj o →
  waypoints_of
    (stored (run store (calls (addStop mirror transactionID)))
       (ONYXKEYS_COLLECTION_TRANSACTION +:+ transactionID))
  = VObj ws.
Proof.
  intros N Hws Htaken. rewrite addStop_stored_waypoints, Hws. fold N.
  rewrite deep_merge_singleton_object, Htaken.
  change (deep_merge (VObj o) (VObj [])) with (VObj o).
  rewrite <- Htaken. rewrite obj_set_same; [done|].
  apply obj_get_present. by rewrite Htaken.
Qed.

(** X14: The transaction subscription feeds [addStop]: after a notification with
    a transaction under a non-empty key, [addStop] for that transaction's id
    appends at the notified transaction's key count, and for any other id
    does what it did before.  A notification without a transaction (a
    deletion) or without a key leaves the mirror as it was, so [addStop]
    goes on counting the waypoints last seen. *)
Theorem allTransactions_callback_feeds_addStop `{!CollectionUtils}
    mirror (k : string) (t : Obj) :
  k ≠ "" →
  let mirror' := allTransactions_callback (Some t) (Some k) mirror in
  calls (addStop mirror' (extractCollectionItemID k))
  = [Onyx_merge_call
       (ONYXKEYS_COLLECTION_TRANSACTION +:+ extractCollectionItemID k)
       (VObj [("comment",
               VObj [("waypoints",
                      VObj [(waypoint_key
                               (length (Object_keys (waypoints_of (VObj t) ?? VObj []))),
                             VObj [])])])])]
  ∧ (∀ transactionID, transactionID ≠ extractCollectionItemID k →
       addStop mirror' transactionID = addStop mirror transactionID)
  ∧ recentWaypoints mirror' = recentWaypoints mirror
  ∧ (∀ k', allTransactions_callback None k' mirror = mirror)
  ∧ (∀ transaction, allTransactions_callback transaction None mirror = mirror)
  ∧ (∀ transaction, allTransactions_callback transaction (Some "") mirror = mirror).
Proof.
  intros Hk mirror'.
  assert (Hmirror' : mirror'
            = {| recentWaypoints := recentWaypoints mirror;
                 allTransactions :=
                   <[extractCollectionItemID k := t]> (allTransactions mirror) |}).
  { subst mirror'. unfold allTransactions_callback. cbn [key_value entry truthy].
    rewrite bool_decide_eq_false_2 by done. done. }
  split; [|split; [|split; [|split; [|split]]]].
  - rewrite addStop_calls, Hmirror'. cbn [allTransactions].
    by rewrite lookup_insert_eq.
  - intros transactionID Hne. unfold addStop. rewrite Hmirror'. cbn [allTransactions].
    by rewrite lookup_insert_ne.
  - by rewrite Hmirror'.
  - intros k'. unfold allTransactions_callback. cbn [entry truthy negb].
    by rewrite orb_true_r.
  - done.
  - intros transaction. unfold allTransactions_callback. cbn [key_value truthy].
    by rewrite bool_decide_eq_true_2.
Qed.

(** X1: [createInitialWaypoints] merges two empty waypoints: on a transaction
    that has no waypoint mapping stored, the mapping becomes exactly
    [waypoint0] and [waypoint1], both empty; on one that has, every stop
    already stored as an object stays as it is (also under [waypoint0] and
    [waypoint1]: they are not reset), and every other key is untouched. *)
Theorem createInitialWaypoints_stored_mapping transactionID store :
  let k := ONYXKEYS_COLLECTION_TRANSACTION +:+ transactionID in
  let before := waypoints_of (stored store k) in
  let after := waypoints_of (stored (run store (calls (createInitialWaypoints transactionID))) k) in
  ((∀ o, before ≠ VObj o) →
   after = VObj [("waypoint0", VObj []); ("waypoint1", VObj [])])
  ∧ (∀ old, before = VObj old →
     (∀ f o, obj_get f old = VObj o → get after f = VObj o)
     ∧ (∀ f, f ≠ "waypoint0" → f ≠ "waypoint1" → get after f = obj_get f old)).
Proof.
  intros k before after.
  assert (Hafter : after
            = deep_merge before (VObj [("waypoint0", VObj []); ("waypoint1", VObj [])])).
  { subst after before. unfold run. cbn [calls createInitialWaypoints Onyx_merge
      mbind M_bind mret M_ret fst snd app foldl].
    fold k. rewrite stored_merge_eq. unfold waypoints_of.
    rewrite get_deep_merge_singleton, decide_True by done.
    by rewrite get_deep_merge_singleton, decide_True by done. }
  rewrite Hafter. split.
  - intros Hnone. by apply deep_merge_non_object.
  - intros old ->. split.
    + intros f o Hf. rewrite obj_get_deep_merge by compute_done.
      case_decide as Hin; [|done]. rewrite Hf.
      cbn [fmap list_fmap fst] in Hin.
      apply elem_of_cons in Hin as [->|Hin]; [done|].
      apply list_elem_of_singleton in Hin as ->. done.
    + intros f Hf0 Hf1. rewrite obj_get_deep_merge by compute_done.
      rewrite decide_False; [done|].
      cbn [fmap list_fmap fst]. rewrite !elem_of_cons, elem_of_nil. tauto.
Qed.

End AddStopMore.

(** ** The route request from start to end *)


Section RouteRequestMore.
Context `{!Imports, !JSON}.


End RouteRequestMore.

(** ** More on [updateWaypoints] *)

Section UpdateWaypointsMore.
Context `{!Imports}.

Lemma updateWaypoints_stored_waypoints transactionID (waypoints : Obj) (isDraft : bool) store :
  waypoints_of
    (stored (run store (calls (updateWaypoints transactionID waypoints isDraft)))
       ((if isDraft then ONYXKEYS_COLLECTION_TRANSACTION_DRAFT
         else ONYXKEYS_COLLECTION_TRANSACTION) +:+ transactionID))
  = deep_merge
      (waypoints_of
         (stored store
            ((if isDraft then ONYXKEYS_COLLECTION_TRANSACTION_DRAFT
              else ONYXKEYS_COLLECTION_TRANSACTION) +:+ transactionID)))
      (VObj waypoints).
Proof.
  unfold run. cbn [calls updateWaypoints Onyx_merge snd foldl].
  rewrite stored_merge_eq. unfold waypoints_of.
  rewrite get_deep_merge by compute_done.
  rewrite decide_True by compute_done. cbn [obj_get].
  rewrite decide_True by done.
  by rewrite get_deep_merge_singleton, decide_True.
Qed.

(** X16: On a transaction with no waypoint mapping stored, [updateWaypoints]
    does install exactly the given mapping. *)
Theorem updateWaypoints_installs_mapping_when_none_stored
    transactionID (waypoints : Obj) (isDraft : bool) store :
  let k := (if isDraft then ONYXKEYS_COLLECTION_TRANSACTION_DRAFT
            else ONYXKEYS_COLLECTION_TRANSACTION) +:+ transactionID in
  (∀ o, waypoints_of (stored store k) ≠ VObj o) →
  waypoints_of (stored (run store (calls (updateWaypoints transactionID waypoints isDraft))) k)
  = VObj waypoints.
Proof.
  intros k Hnone. subst k. rewrite updateWaypoints_stored_waypoints.
  by apply deep_merge_non_object.
Qed.

(** X17: [updateWaypoints] cannot blank a stop: where the stored mapping and the
    given one both have a waypoint object under a key, a field that the given
    waypoint lacks keeps its stored value; so giving an empty waypoint for a
    stored stop leaves the stop as it was. *)
Theorem updateWaypoints_keeps_fields_the_new_waypoint_lacks
    transactionID (waypoints old new o : Obj) (isDraft : bool) store slot f :
  let k := (if isDraft then ONYXKEYS_COLLECTION_TRANSACTION_DRAFT
            else ONYXKEYS_COLLECTION_TRANSACTION) +:+ transactionID in
  let after :=
    waypoints_of (stored (run store (calls (updateWaypoints transactionID waypoints isDraft))) k) in
  NoDup waypoints.*1 →
  waypoints_of (stored store k) = VObj old →
  obj_get slot old = VObj o →
  obj_get slot waypoints = VObj new →
  f ∉ new.*1 →
  get (get after slot) f = obj_get f o
  ∧ (new = [] → get after slot = VObj o).
Proof.
  intros k after Hnodup Hold Ho Hnew Hf. subst after k.
  rewrite updateWaypoints_stored_waypoints, Hold.
  rewrite obj_get_deep_merge by done.
  rewrite decide_True by (apply obj_get_present; by rewrite Hnew).
  rewrite Ho, Hnew. split; [by apply get_deep_merge_other|].
  by intros ->.
Qed.

End UpdateWaypointsMore.

(** ** The sidebar's report list *)



(** X19: When the app is not loading, or the network is offline, or the priority
    mode has changed, or nothing was listed yet, the memoised list is the
    freshly ordered one. *)
Theorem optionListItems_follows_the_fresh_order reportIDsRef r :
  truthy (default_parameter (isLoadingApp r) (VBool true)) = false
  ∨ truthy (isOffline r) = true
  ∨ strict_equals (prevPriorityMode r) (priorityMode r) = false
  ∨ reportIDsRef = None →
  (optionListItems reportIDsRef r).2 = Some (orderedReportIDs r None)
  ∧ (optionListItems reportIDsRef r).1 = Some (orderedReportIDs r None).
Proof.
  intros Hfresh. unfold optionListItems. cbv zeta.
  destruct reportIDsRef as [ids|]; cbn [deepEqual_ids].
  - case_bool_decide as Hsame; [by subst ids|].
    rewrite (bool_decide_eq_true_2 (is_Some (Some ids))) by eauto.
    cbn [negb andb orb].
    destruct Hfresh as [->|[->|[->|?]]]; [| | |done]; cbn [negb orb];
      rewrite ?orb_true_r; done.
  - rewrite (bool_decide_eq_false_2 (is_Some None)) by (by intros [? ?]).
    cbn [negb]. by rewrite orb_true_r.
Qed.

(** X20: While the app is loading, online and in the same priority mode, a list
    once shown stays: over any number of runs the ref keeps the list it had,
    and every run whose current report is absent or in that list hands
    exactly that list to [SidebarLinks], however the fresh order changes. *)
Theorem SidebarLinksData_list_is_frozen_while_loading (l : list string) (rs : list Render) :
  Forall (λ r,
            truthy (default_parameter (isLoadingApp r) (VBool true)) = true
            ∧ truthy (isOffline r) = false
            ∧ strict_equals (prevPriorityMode r) (priorityMode r) = true) rs →
  (renders (Some l) rs).1 = Some l
  ∧ ∀ (i : nat) r out,
      rs !! i = Some r → (renders (Some l) rs).2 !! i = Some out →
      (currentReportID r = None ∨ ∃ id, currentReportID r = Some id ∧ id ∈ l) →
      out = Some l.
Proof.
  induction 1 as [|r rs (Hloading & Honline & Hmode) _ IH]; [by split|].
  assert (Hmemo : optionListItems (Some l) r = (Some l, Some l)).
  { unfold optionListItems. cbv zeta. cbn [deepEqual_ids].
    case_bool_decide as Hsame; [done|].
    rewrite Hloading, Honline, Hmode.
    by rewrite (bool_decide_eq_true_2 (is_Some (Some l))) by eauto. }
  cbn [renders]. cbv zeta. unfold SidebarLinksData at 1 2. cbv zeta.
  rewrite Hmemo. cbn [fst snd]. destruct IH as [IHref IHouts].
  split; [done|].
  intros [|i] r' out Hr Hout Hcurrent.
  2:{ cbn in Hr, Hout. rewrite Hmemo in Hout. by eapply IHouts. }
  cbn in Hr, Hout. simplify_eq.
  unfold optionListItemsWithCurrentReport. rewrite Hmemo. cbn [snd].
  destruct Hcurrent as [->|(id & -> & Hin)]; [done|].
  cbn [includes truthy]. rewrite (bool_decide_eq_true_2 _ Hin). cbn [negb].
  by rewrite andb_false_r.
Qed.

(** ** The report-action selector *)

Lemma select_reportAction_None a :
  select_reportAction a = None
  ↔ nullish a = true
    ∨ (nullish (get a "message") = false
       ∧ nullish (get_first (get a "message")) = true).
Proof.
  unfold select_reportAction.
  destruct (nullish a); [split; [by left | done]|].
  destruct (nullish (get a "message")).
  { cbn. split; [done|]. intros [?|[? _]]; done. }
  destruct (nullish (get_first (get a "message"))); cbn.
  - split; [by right | done].
  - split; [done|]. intros [?|[_ ?]]; done.
Qed.

Lemma select_reportAction_Some a item :
  select_reportAction a = Some item →
  item = VObj [("reportActionID", get a "reportActionID");
               ("actionName", get a "actionName");
               ("errors", get a "errors");
               ("message",
                VArr [VObj [("moderationDecision",
                             VObj [("decision",
                                    get (get (get_first (get a "message"))
                                           "moderationDecision") "decision")])]])].
Proof.
  unfold select_reportAction.
  destruct (nullish a); [done|].
  destruct (nullish (get a "message")) eqn:Hmessage.
  - cbn. intros [= <-]. by destruct (get a "message").
  - destruct (nullish (get_first (get a "message"))); [done|].
    cbn. by intros [= <-].
Qed.

(** X21: [reportActionsSelector] returns a falsy input as it is and otherwise
    maps over the report actions; it throws exactly when one of them is null
    or undefined, or has a message (not null or undefined) without a first
    element, such as an empty array. *)
Theorem reportActionsSelector_throws_exactly_when reportActions :
  (truthy reportActions = false → reportActionsSelector reportActions = Some reportActions)
  ∧ (truthy reportActions = true →
     (reportActionsSelector reportActions = None
      ↔ ∃ reportAction, reportAction ∈ Object_values reportActions
          ∧ (nullish reportAction = true
             ∨ (nullish (get reportAction "message") = false
                ∧ nullish (get_first (get reportAction "message")) = true)))).
Proof.
  unfold reportActionsSelector. split.
  - by intros ->.
  - intros ->. cbn [negb]. rewrite fmap_None, mapM_None, Exists_exists.
    by setoid_rewrite select_reportAction_None.
Qed.

(** X22: What [reportActionsSelector] keeps of each report action: one entry per
    action, in the same order, with exactly the keys [reportActionID],
    [actionName], [errors] and [message]; the first three are the action's,
    and [message] is a one-element array that holds only the moderation
    decision of the action's first message (undefined when there is none). *)
Theorem reportActionsSelector_keeps_four_fields reportActions selected :
  truthy reportActions = true →
  reportActionsSelector reportActions = Some selected →
  ∃ items,
    selected = VArr items
    ∧ length items = length (Object_values reportActions)
    ∧ ∀ (i : nat) reportAction item,
        Object_values reportActions !! i = Some reportAction →
        items !! i = Some item →
        Object_keys item = ["reportActionID"; "actionName"; "errors"; "message"]
        ∧ get item "reportActionID" = get reportAction "reportActionID"
        ∧ get item "actionName" = get reportAction "actionName"
        ∧ get item "errors" = get reportAction "errors"
        ∧ get item "message"
          = VArr [VObj [("moderationDecision",
                         VObj [("decision",
                                get (get (get_first (get reportAction "message"))
                                       "moderationDecision") "decision")])]].
Proof.
  unfold reportActionsSelector. intros -> Hselected. cbn [negb] in Hselected.
  apply fmap_Some in Hselected as (items & Hitems & ->).
  apply mapM_Some in Hitems. exists items. split; [done|].
  split; [symmetry; by eapply Forall2_length|].
  intros i reportAction item Ha Hitem.
  pose proof (Forall2_lookup_lr _ _ _ _ _ _ Hitems Ha Hitem) as Hselect.
  apply select_reportAction_Some in Hselect as ->. done.
Qed.

(** ** The further properties on concrete inputs *)

Lemma removeWaypoint_contiguous_keys_witness :
  ∃ written,
    waypoints_of
      (the_written (removeWaypoint (H := sample_imports) (Some odd_keys_transaction)
                      "abc" false))
    = VObj written
    ∧ Object_keys (VObj written) = waypoint_keys (length written).
Proof.
  destruct (removeWaypoint_always_writes_contiguous_keys (H := sample_imports)
              (Some odd_keys_transaction) "abc" false
              (the_written (removeWaypoint (H := sample_imports)
                              (Some odd_keys_transaction) "abc" false)))
    as (written & Hwaypoints & Hkeys & _); [vm_compute; reflexivity|].
  exists written. split; [exact Hwaypoints | exact Hkeys].
Defined.

Lemma removeWaypoint_written_count_witness :
  length (own_props
            (waypoints_of
               (the_written (removeWaypoint (H := sample_imports)
                               (Some (sample_transaction two_stops)) "abc" false))))
  = 1%nat.
Proof.
  apply (proj2 (removeWaypoint_written_count (H := sample_imports)
                  (Some (sample_transaction two_stops)) "abc" false
                  (the_written (removeWaypoint (H := sample_imports)
                                  (Some (sample_transaction two_stops)) "abc" false))
                  (own_props
                     (waypoints_of
                        (the_written (removeWaypoint (H := sample_imports)
                                        (Some (sample_transaction two_stops)) "abc" false))))
                  ltac:(vm_compute; reflexivity) ltac:(vm_compute; reflexivity))).
Defined.

Lemma removeWaypoint_negative_index_witness :
  ∃ newTransaction,
    written_transaction
      (removeWaypoint (H := signed_imports) (Some (sample_transaction two_stops)) "-1" false)
    = Some newTransaction
    ∧ Object_values (waypoints_of newTransaction) = [VObj stop_A].
Proof.
  apply (removeWaypoint_negative_index_counts_from_end (H := signed_imports)
           (Some (sample_transaction two_stops)) "-1" false two_stops 1);
    [reflexivity | reflexivity | simpl; lia].
Defined.

Lemma removeWaypoint_without_waypoints_witness :
  calls (removeWaypoint (H := sample_imports) None "0" false) = []
  ∧ calls (removeWaypoint (H := sample_imports) (Some [("transactionID", VStr "t1")]) "0" true)
    = [].
Proof.
  split; apply (removeWaypoint_without_waypoints_does_nothing (H := sample_imports));
    reflexivity.
Defined.

Lemma removeWaypoint_index_past_the_end_witness :
  calls (removeWaypoint (H := sample_imports) (Some (sample_transaction two_stops)) "2" false)
  = [].
Proof.
  apply (removeWaypoint_index_past_the_end_does_nothing (H := sample_imports)
           (Some (sample_transaction two_stops)) "2" false 2).
  left. split; [reflexivity | simpl; lia].
Defined.

Lemma removeWaypoint_replaces_witness :
  stored (run (sample_store three_stops)
            (calls (removeWaypoint (H := sample_imports)
                      (Some (sample_transaction three_stops)) "1" true)))
    "transactionsDraft_t1"
  = the_written (removeWaypoint (H := sample_imports)
                   (Some (sample_transaction three_stops)) "1" true).
Proof.
  destruct (removeWaypoint_replaces_the_stored_record (H := sample_imports)
              (Some (sample_transaction three_stops)) "1" true
              (the_written (removeWaypoint (H := sample_imports)
                              (Some (sample_transaction three_stops)) "1" true)))
    as [Hstore _]; [vm_compute; reflexivity|].
  exact (proj1 (Hstore (sample_store three_stops))).
Defined.

Lemma saveWaypoint_distinct_addresses_witness :
  distinct_addresses [VObj stop_B; VObj stop_A]
  ∧ (length [VObj stop_B; VObj stop_A] ≤ 5)%nat.
Proof.
  destruct (saveWaypoint_keeps_recent_addresses_distinct (H := sample_imports)
              sample_mirror "t1" "1" (Some stop_B) false [VObj stop_B; VObj stop_A])
    as (Hdistinct & Hlength & _).
  - intros [|i] [|j] x y Hi Hj Hne; [done|done|done|]. destruct i; discriminate Hi.
  - right. left.
  - split; [exact Hdistinct | exact Hlength].
Defined.

Lemma saveWaypoint_again_witness :
  length (calls (saveWaypoint (H := sample_imports)
                   (recentWaypoints_callback (Some [stop_B; stop_A]) sample_mirror)
                   "t2" "0" (Some stop_B) true))
  = 1%nat.
Proof.
  apply (saveWaypoint_again_leaves_recent_alone (H := sample_imports)
           sample_mirror "t1" "1" false "t2" "0" true stop_B "2 Oak Ave" [stop_B; stop_A]).
  - reflexivity.
  - right. left.
Defined.


Lemma saveWaypoint_keeps_fields_witness :
  get (get (waypoints_of
              (stored (run (sample_store two_stops)
                         (calls (saveWaypoint (H := sample_imports) sample_mirror "t1" "1"
                                   (Some [("address", VStr "9 Elm St")]) true)))
                 "transactions_t1")) "waypoint1") "lat"
  = VNum (number_of_Z 11).
Proof.
  apply (saveWaypoint_keeps_fields_the_waypoint_lacks (H := sample_imports)
           sample_mirror "t1" "1" [("address", VStr "9 Elm St")] stop_B true
           (sample_store two_stops) "lat").
  - discriminate.
  - reflexivity.
  - cbn. rewrite list_elem_of_singleton. discriminate.
Defined.

Lemma addStop_contiguous_witness :
  Object_keys
    (waypoints_of
       (stored (run (sample_store two_stops)
                  (calls (addStop (H := sample_imports) sample_mirror "t1")))
          "transactions_t1"))
  = ["waypoint0"; "waypoint1"; "waypoint2"].
Proof.
  apply (addStop_keeps_keys_contiguous (H := sample_imports) sample_mirror "t1"
           (sample_store two_stops) (sample_transaction two_stops) two_stops);
    reflexivity.
Defined.

Lemma addStop_taken_key_witness :
  waypoints_of
    (stored (run (sample_store gap_stops)
               (calls (addStop (H := sample_imports)
                         {| recentWaypoints := [];
                            allTransactions := {[ "t1" := sample_transaction gap_stops ]} |}
                         "t1")))
       "transactions_t1")
  = VObj gap_stops.
Proof.
  apply (addStop_on_a_taken_key_adds_nothing (H := sample_imports)
           {| recentWaypoints := [];
              allTransactions := {[ "t1" := sample_transaction gap_stops ]} |}
           "t1" (sample_store gap_stops) gap_stops stop_C);
    reflexivity.
Defined.

Lemma allTransactions_callback_witness :
  calls (addStop (H := sample_imports)
           (@allTransactions_callback sample_CollectionUtils
              (Some (sample_transaction three_stops)) (Some "transactions_t7")
              sample_mirror)
           "t7")
  = [Onyx_merge_call "transactions_t7"
       (VObj [("comment", VObj [("waypoints", VObj [("waypoint3", VObj [])])])])].
Proof.
  apply (@allTransactions_callback_feeds_addStop sample_imports sample_CollectionUtils
           sample_mirror "transactions_t7" (sample_transaction three_stops)).
  discriminate.
Defined.

Lemma createInitialWaypoints_witness :
  waypoints_of
    (stored (run ∅ (calls (createInitialWaypoints (H := sample_imports) "t1")))
       "transactions_t1")
  = VObj [("waypoint0", VObj []); ("waypoint1", VObj [])]
  ∧ get (waypoints_of
           (stored (run (sample_store two_stops)
                      (calls (createInitialWaypoints (H := sample_imports) "t1")))
              "transactions_t1")) "waypoint0"
    = VObj stop_A.
Proof.
  split.
  - apply (proj1 (createInitialWaypoints_stored_mapping (H := sample_imports) "t1" ∅)).
    intros o. discriminate.
  - destruct (proj2 (createInitialWaypoints_stored_mapping (H := sample_imports) "t1"
                       (sample_store two_stops)) two_stops) as [Hkept _]; [reflexivity|].
    by apply (Hkept "waypoint0" stop_A).
Defined.

Lemma updateWaypoints_installs_witness :
  waypoints_of
    (stored (run ∅ (calls (updateWaypoints (H := sample_imports) "t1" two_stops true)))
       "transactionsDraft_t1")
  = VObj two_stops.
Proof.
  apply (updateWaypoints_installs_mapping_when_none_stored (H := sample_imports)
           "t1" two_stops true ∅).
  intros o. discriminate.
Defined.

Lemma updateWaypoints_keeps_fields_witness :
  get (waypoints_of
         (stored (run (sample_store two_stops)
                    (calls (updateWaypoints (H := sample_imports) "t1"
                              [("waypoint0", VObj []); ("waypoint1", VObj stop_A)] false)))
            "transactions_t1")) "waypoint0"
  = VObj stop_A.
Proof.
  destruct (updateWaypoints_keeps_fields_the_new_waypoint_lacks (H := sample_imports)
              "t1" [("waypoint0", VObj []); ("waypoint1", VObj stop_A)]
              two_stops [] stop_A false (sample_store two_stops) "waypoint0" "address")
    as [_ Hkept]; [compute_done | reflexivity | reflexivity | reflexivity
                  | apply not_elem_of_nil |].
  by apply Hkept.
Defined.

Lemma optionListItems_fresh_order_witness :
  (optionListItems (Some ["1"; "2"]) (settled_render ["2"; "1"; "3"])).2
  = Some ["2"; "1"; "3"].
Proof.
  apply (proj1 (optionListItems_follows_the_fresh_order (Some ["1"; "2"])
                  (settled_render ["2"; "1"; "3"]) ltac:(left; reflexivity))).
Defined.

Lemma SidebarLinksData_frozen_witness :
  (renders (Some ["1"; "2"])
     [loading_render ["2"; "1"] None; loading_render ["3"; "2"; "1"] (Some "2")]).1
  = Some ["1"; "2"].
Proof.
  apply (proj1 (SidebarLinksData_list_is_frozen_while_loading ["1"; "2"]
                  [loading_render ["2"; "1"] None; loading_render ["3"; "2"; "1"] (Some "2")]
                  ltac:(repeat constructor))).
Defined.

Lemma reportActionsSelector_throws_witness :
  reportActionsSelector
    (VObj [("7", sample_reportAction "7" "approved");
           ("8", VObj [("reportActionID", VStr "8"); ("message", VArr [])])])
  = None.
Proof.
  apply (proj2 (reportActionsSelector_throws_exactly_when
                  (VObj [("7", sample_reportAction "7" "approved");
                         ("8", VObj [("reportActionID", VStr "8"); ("message", VArr [])])])));
    [reflexivity|].
  exists (VObj [("reportActionID", VStr "8"); ("message", VArr [])]).
  split; [right; left | right; split; reflexivity].
Defined.

Lemma reportActionsSelector_keeps_witness :
  ∃ items,
    VArr [VObj [("reportActionID", VStr "7"); ("actionName", VStr "ADDCOMMENT");
                ("errors", VUndefined);
                ("message",
                 VArr [VObj [("moderationDecision",
                              VObj [("decision", VStr "approved")])]])]]
    = VArr items
    ∧ length items = 1%nat.
Proof.
  destruct (reportActionsSelector_keeps_four_fields
              (VObj [("7", sample_reportAction "7" "approved")])
              (VArr [VObj [("reportActionID", VStr "7"); ("actionName", VStr "ADDCOMMENT");
                           ("errors", VUndefined);
                           ("message",
                            VArr [VObj [("moderationDecision",
                                         VObj [("decision", VStr "approved")])]])]]))
    as (items & Hitems & Hlength & _); [reflexivity | reflexivity |].
  exists items. split; [exact Hitems | exact Hlength].
Defined.
